(** * Adapter pattern demonstrations: a verified model

    Two Python programs are modelled here:

    - [Structural/Adapter-Pattern/main.py]: two temperature sensors and the
      [TemperatureSensorAdapter] that converts Fahrenheit readings;
    - [Principles/Adapter-Pattern/main.py]: the [DataStoreAdapter] interface
      and its MySQL, MongoDB and S3 implementations.

    Python objects live on a heap of attribute dictionaries, methods are
    programs of a small effect monad ([Prog]) whose requests to the outside
    world (the store client libraries) are answered by a handler, and method
    calls on heap objects are dispatched on the class of the receiver at run
    time. *)

From Stdlib Require Import ZArith NArith List String Ascii Lia Uint63.
From Stdlib Require Import Floats.PrimFloat Floats.FloatOps.
From stdpp Require Import gmap strings list.

Local Open Scope Z_scope.
Set Warnings "-register-all".

(** ** Values *)

(** A Python [str] is a sequence of code points. *)
Abbreviation pystr := (list N).

(** A string literal of the source, as code points. *)
Definition lit (s : string) : pystr :=
  map N_of_ascii (list_ascii_of_string s).

(** The values the programs handle. [VDict] holds dictionaries keyed by
    strings, in insertion order. [VExt h] is an object owned by a library
    outside this repository (a session, a cursor, a bucket, ...), known
    only by its handle. [VObj l] is an instance of one of this repository's
    classes, at address [l] of the heap. *)
Inductive Val : Type :=
| VNone
| VBool (b : bool)
| VInt (z : Z)
| VFloat (f : float)
| VStr (s : pystr)
| VBytes (b : list Byte.byte)
| VTuple (vs : list Val)
| VList (vs : list Val)
| VDict (kvs : list (pystr * Val))
| VExt (h : N)
| VObj (l : N).

(** Exceptions. [LibraryError name] is any exception raised by a library
    outside this repository, identified by its name. *)
Inductive Exc : Type :=
| NotImplementedError
| AttributeError
| TypeError
| KeyError
| ZeroDivisionError
| OverflowError
| RecursionError
| UnicodeEncodeError
| UnicodeDecodeError
| LibraryError (name : string).

(** The method names that occur in the two source files. *)
Module Sel.
Inductive t : Type :=
| __init__ | get_temperature | read_data | write_data
| cursor | execute | fetchall | commit
| find | insert_one
| Bucket | Object | get | read | put
| encode | decode.
End Sel.

(** Keyword arguments of a call, in the order they are written. *)
Abbreviation Kwargs := (list (pystr * Val)).

(** Requests answered outside this repository: a call of a library function
    or of a builtin on a value the model does not interpret, a method call,
    a subscript, a binary operator. *)
Inductive Call : Type :=
| CGlobal (f : string) (args : list Val) (kwargs : Kwargs)
| CMethod (recv : Val) (m : Sel.t) (args : list Val) (kwargs : Kwargs)
| CGetItem (container key : Val)
| CBinOp (op : string) (a b : Val).

(** ** Programs *)

(** A method body: it returns a value, raises, reads or writes an attribute
    of a heap object, asks the outside world, calls a method of a heap
    object, or runs a body under an exception handler. *)
Inductive Prog : Type :=
| Ret (v : Val)
| Raise (e : Exc)
| GetAttr (o : N) (name : string) (k : Val -> Prog)
| SetAttr (o : N) (name : string) (v : Val) (k : Prog)
| Invoke (c : Call) (k : Val -> Prog)
| Send (o : N) (m : Sel.t) (args : list Val) (kwargs : Kwargs) (k : Val -> Prog)
| Try (body : Prog) (handler : Exc -> Prog) (k : Val -> Prog).

Fixpoint bind (p : Prog) (f : Val -> Prog) : Prog :=
  match p with
  | Ret v => f v
  | Raise e => Raise e
  | GetAttr o n k => GetAttr o n (fun v => bind (k v) f)
  | SetAttr o n v k => SetAttr o n v (bind k f)
  | Invoke c k => Invoke c (fun v => bind (k v) f)
  | Send o m a kw k => Send o m a kw (fun v => bind (k v) f)
  | Try b h k => Try b h (fun v => bind (k v) f)
  end.

Notation "x <- p ;; q" := (bind p (fun x => q))
  (at level 100, p at next level, right associativity).
Notation "p ;;; q" := (bind p (fun _ => q))
  (at level 100, right associativity).

(** The signature of a method: [self], positional and keyword arguments. *)
Abbreviation Method := (N -> list Val -> Kwargs -> Prog).

(** ** Calling conventions *)

Fixpoint take_key (n : pystr) (kw : Kwargs) : option (Val * Kwargs) :=
  match kw with
  | [] => None
  | (n', v) :: kw' =>
      if decide (n = n') then Some (v, kw')
      else match take_key n kw' with
           | Some (w, rest) => Some (w, (n', v) :: rest)
           | None => None
           end
  end.

(** Binding of the arguments of a call to the parameters of a [def]:
    positional arguments first, the remaining parameters by keyword; [None]
    stands for the [TypeError] of a call that does not fit the signature. *)
Fixpoint bind_params (names : list pystr) (args : list Val) (kw : Kwargs)
  : option (list Val) :=
  match names, args with
  | [], [] => match kw with [] => Some [] | _ => None end
  | [], _ :: _ => None
  | n :: names', a :: args' =>
      match take_key n kw with
      | Some _ => None
      | None => option_map (cons a) (bind_params names' args' kw)
      end
  | n :: names', [] =>
      match take_key n kw with
      | Some (v, kw') => option_map (cons v) (bind_params names' [] kw')
      | None => None
      end
  end.

(** ** Numbers *)

(** The fraction [n / d * 2^(-k)], as numerator and denominator. *)
Definition scaled (n d k : Z) : Z * Z :=
  if 0 <=? k then (n, d * 2 ^ k) else (n * 2 ^ (- k), d).

(** The binary64 number nearest to the rational [n / d], for [0 <= n] and
    [0 < d], ties going to the even significand; [None] when the rounded
    value exceeds the largest finite binary64 number. This is the result of
    Python's [int / int] and of the conversion of an [int] to [float]. *)
Definition nearest_float (n d : Z) : option float :=
  if n =? 0 then Some zero
  else
    let e0 := Z.log2 n - Z.log2 d in
    let '(n0, d0) := scaled n d e0 in
    let e := if n0 <? d0 then e0 - 1 else e0 in
    let k := Z.max (e - 52) (-1074) in
    let '(num, den) := scaled n d k in
    let m := num / den in
    let r := num mod den in
    let m' := if (den <? 2 * r) || ((2 * r =? den) && Z.odd m)
              then m + 1 else m in
    if 1024 <=? Z.log2 m' + k then None
    else Some (Z.ldexp (of_uint63 (Uint63.of_Z m')) k).

(** [float(z)]: an [int] converted for an operation with a [float]. *)
Definition float_of_int (z : Z) : option float :=
  if z <? 0 then option_map PrimFloat.opp (nearest_float (- z) 1)
  else nearest_float z 1.

(** [a / b] on two [int]s, [b] not zero. *)
Definition int_true_divide (a b : Z) : option float :=
  if Bool.eqb (a <? 0) (b <? 0)
  then nearest_float (Z.abs a) (Z.abs b)
  else option_map PrimFloat.opp (nearest_float (Z.abs a) (Z.abs b)).

(** Python's numbers among the values: [bool] is a subtype of [int]. *)
Inductive Num : Type :=
| NInt (z : Z)
| NFloat (f : float).

Definition as_num (v : Val) : option Num :=
  match v with
  | VBool b => Some (NInt (if b then 1 else 0))
  | VInt z => Some (NInt z)
  | VFloat f => Some (NFloat f)
  | _ => None
  end.

Definition to_float (n : Num) : option float :=
  match n with
  | NInt z => float_of_int z
  | NFloat f => Some f
  end.

Definition is_ext (v : Val) : bool :=
  match v with VExt _ => true | _ => false end.

(** An operator applied to operands that are not both numbers: an object of
    a library decides for itself; the builtin types and the classes of this
    repository do not define the operator. *)
Definition binop_other (op : string) (a b : Val) : Prog :=
  if is_ext a || is_ext b then Invoke (CBinOp op a b) Ret
  else Raise TypeError.

(** The arithmetic of two floats, the [int] operand converted first, or
    the exact arithmetic of two [int]s. *)
Definition float_op (f : float -> float -> float) (x y : Num) : Prog :=
  match to_float x, to_float y with
  | Some fx, Some fy => Ret (VFloat (f fx fy))
  | _, _ => Raise OverflowError
  end.

(** [a - b] *)
Definition py_sub (a b : Val) : Prog :=
  match as_num a, as_num b with
  | Some (NInt x), Some (NInt y) => Ret (VInt (x - y))
  | Some x, Some y => float_op PrimFloat.sub x y
  | _, _ => binop_other "-" a b
  end.

Definition seq_repeat {A} (l : list A) (n : Z) : list A :=
  concat (replicate (Z.to_nat n) l).

(** [s * n] for a sequence [s]: [n] copies of it. *)
Definition repeat_val (s : Val) (n : Z) : option Val :=
  match s with
  | VStr l => Some (VStr (seq_repeat l n))
  | VBytes l => Some (VBytes (seq_repeat l n))
  | VTuple l => Some (VTuple (seq_repeat l n))
  | VList l => Some (VList (seq_repeat l n))
  | _ => None
  end.

(** [a * b] *)
Definition py_mul (a b : Val) : Prog :=
  match as_num a, as_num b with
  | Some (NInt x), Some (NInt y) => Ret (VInt (x * y))
  | Some x, Some y => float_op PrimFloat.mul x y
  | None, Some (NInt n) =>
      match repeat_val a n with
      | Some v => Ret v
      | None => binop_other "*" a b
      end
  | Some (NInt n), None =>
      match repeat_val b n with
      | Some v => Ret v
      | None => binop_other "*" a b
      end
  | _, _ => binop_other "*" a b
  end.

(** [a / b]: true division, which always yields a [float] on numbers. *)
Definition py_truediv (a b : Val) : Prog :=
  match as_num a, as_num b with
  | Some (NInt x), Some (NInt y) =>
      if y =? 0 then Raise ZeroDivisionError
      else match int_true_divide x y with
           | Some f => Ret (VFloat f)
           | None => Raise OverflowError
           end
  | Some x, Some y =>
      match to_float x, to_float y with
      | Some fx, Some fy =>
          if PrimFloat.eqb fy zero then Raise ZeroDivisionError
          else Ret (VFloat (PrimFloat.div fx fy))
      | _, _ => Raise OverflowError
      end
  | _, _ => binop_other "/" a b
  end.

(** ** Text and bytes *)

Local Open Scope N_scope.

Definition byte_of (n : N) : Byte.byte :=
  match Byte.of_N n with Some b => b | None => Byte.x00 end.

(** The UTF-8 encoding of one code point; [None] for a surrogate (and for a
    number that is no code point). *)
Definition utf8_encode_cp (c : N) : option (list Byte.byte) :=
  if c <? 0x80 then Some [byte_of c]
  else if c <? 0x800 then
    Some [byte_of (0xC0 + c / 64); byte_of (0x80 + c mod 64)]
  else if c <? 0x10000 then
    if (0xD800 <=? c) && (c <=? 0xDFFF) then None
    else Some [byte_of (0xE0 + c / 4096);
               byte_of (0x80 + (c / 64) mod 64);
               byte_of (0x80 + c mod 64)]
  else if c <? 0x110000 then
    Some [byte_of (0xF0 + c / 262144);
          byte_of (0x80 + (c / 4096) mod 64);
          byte_of (0x80 + (c / 64) mod 64);
          byte_of (0x80 + c mod 64)]
  else None.

(** [s.encode('utf-8')] with the default, strict error handling; [None] is
    [UnicodeEncodeError]. *)
Fixpoint utf8_encode (s : pystr) : option (list Byte.byte) :=
  match s with
  | [] => Some []
  | c :: s' =>
      match utf8_encode_cp c, utf8_encode s' with
      | Some bs, Some rest => Some (bs ++ rest)
      | _, _ => None
      end
  end.

Definition between (lo x hi : N) : bool := (lo <=? x) && (x <=? hi).

(** [b.decode('utf-8')] with the default, strict error handling: only the
    well-formed byte sequences of the Unicode standard are accepted (no
    overlong form, no surrogate, nothing above U+10FFFF); [None] is
    [UnicodeDecodeError]. *)
Fixpoint utf8_decode (bs : list Byte.byte) : option pystr :=
  match bs with
  | [] => Some []
  | b0 :: r0 =>
      let x0 := Byte.to_N b0 in
      if x0 <? 0x80 then option_map (cons x0) (utf8_decode r0)
      else if between 0xC2 x0 0xDF then
        match r0 with
        | b1 :: r1 =>
            let x1 := Byte.to_N b1 in
            if between 0x80 x1 0xBF
            then option_map (cons ((x0 - 0xC0) * 64 + (x1 - 0x80)))
                            (utf8_decode r1)
            else None
        | _ => None
        end
      else if between 0xE0 x0 0xEF then
        match r0 with
        | b1 :: b2 :: r2 =>
            let x1 := Byte.to_N b1 in
            let x2 := Byte.to_N b2 in
            let lo := if x0 =? 0xE0 then 0xA0 else 0x80 in
            let hi := if x0 =? 0xED then 0x9F else 0xBF in
            if between lo x1 hi && between 0x80 x2 0xBF
            then option_map
                   (cons ((x0 - 0xE0) * 4096 + (x1 - 0x80) * 64 + (x2 - 0x80)))
                   (utf8_decode r2)
            else None
        | _ => None
        end
      else if between 0xF0 x0 0xF4 then
        match r0 with
        | b1 :: b2 :: b3 :: r3 =>
            let x1 := Byte.to_N b1 in
            let x2 := Byte.to_N b2 in
            let x3 := Byte.to_N b3 in
            let lo := if x0 =? 0xF0 then 0x90 else 0x80 in
            let hi := if x0 =? 0xF4 then 0x8F else 0xBF in
            if between lo x1 hi && between 0x80 x2 0xBF && between 0x80 x3 0xBF
            then option_map
                   (cons ((x0 - 0xF0) * 262144 + (x1 - 0x80) * 4096
                          + (x2 - 0x80) * 64 + (x3 - 0x80)))
                   (utf8_decode r3)
            else None
        | _ => None
        end
      else None
  end.

(** The text a [str] may hold that UTF-8 can encode: code points up to
    U+10FFFF that are not surrogates. *)
Definition scalar_value (c : N) : Prop :=
  c < 0xD800 \/ (0xDFFF < c /\ c < 0x110000).

Local Close Scope N_scope.

(** ** Dynamic operations *)

Definition utf_8 : pystr := lit "utf-8".

(** Which of the method names the builtin types define; every object has an
    [__init__]. *)
Definition builtin_has (v : Val) (m : Sel.t) : bool :=
  match v, m with
  | _, Sel.__init__ => true
  | VStr _, (Sel.encode | Sel.find) => true
  | VBytes _, (Sel.decode | Sel.find) => true
  | VDict _, Sel.get => true
  | _, _ => false
  end.

(** [s.encode(e)] on a [str] and [b.decode(e)] on [bytes], for the one
    codec the sources name. *)
Definition codec_call (recv : Val) (m : Sel.t) (args : list Val) (kw : Kwargs)
  : option Prog :=
  match recv, m, args, kw with
  | VStr s, Sel.encode, [VStr e], [] =>
      if decide (e = utf_8)
      then Some (match utf8_encode s with
                 | Some b => Ret (VBytes b)
                 | None => Raise UnicodeEncodeError
                 end)
      else None
  | VBytes b, Sel.decode, [VStr e], [] =>
      if decide (e = utf_8)
      then Some (match utf8_decode b with
                 | Some s => Ret (VStr s)
                 | None => Raise UnicodeDecodeError
                 end)
      else None
  | _, _, _, _ => None
  end.

(** [recv.m( *args, **kw)]. A heap object is sent the message; an object of
    a library answers for itself; a builtin value that lacks the attribute
    raises [AttributeError], the codec calls are computed here and any other
    builtin method is left to the outside. The arguments are evaluated
    before the receiver is asked. *)
Definition call_method (recv : Val) (m : Sel.t) (args : list Val) (kw : Kwargs)
  : Prog :=
  match recv with
  | VObj l => Send l m args kw Ret
  | VExt _ => Invoke (CMethod recv m args kw) Ret
  | _ =>
      if builtin_has recv m then
        match codec_call recv m args kw with
        | Some p => p
        | None => Invoke (CMethod recv m args kw) Ret
        end
      else Raise AttributeError
  end.

Fixpoint dict_get (k : pystr) (d : list (pystr * Val)) : option Val :=
  match d with
  | [] => None
  | (k', v) :: d' => if decide (k = k') then Some v else dict_get k d'
  end.

(** [c[key]]: the classes of this repository are not subscriptable, a
    dictionary is looked up, anything else is left to the outside. *)
Definition py_getitem (c key : Val) : Prog :=
  match c, key with
  | VObj _, _ => Raise TypeError
  | VDict d, VStr k =>
      match dict_get k d with
      | Some v => Ret v
      | None => Raise KeyError
      end
  | _, _ => Invoke (CGetItem c key) Ret
  end.

(** [format(v, '')], the value of a replacement field [{v}] of an f-string:
    a [str] is itself, anything else is formatted outside. *)
Definition py_format (v : Val) : Prog :=
  match v with
  | VStr s => Ret (VStr s)
  | _ => Invoke (CGlobal "format" [v] [])
           (fun r => match r with VStr _ => Ret r | _ => Raise TypeError end)
  end.

(** The f-string [f"<pre>{v}<post>"]. *)
Definition fstring (pre : string) (v : Val) (post : string) : Prog :=
  r <- py_format v ;;
  match r with
  | VStr s => Ret (VStr (lit pre ++ s ++ lit post))
  | _ => Raise TypeError
  end.

(** [list(v)] *)
Definition py_list (v : Val) : Prog :=
  match v with
  | VList l | VTuple l => Ret (VList l)
  | VObj _ => Raise TypeError
  | _ => Invoke (CGlobal "list" [v] []) Ret
  end.

(** [f( **v)]: the keyword arguments a mapping unpacks to. *)
Definition unpack_kwargs (v : Val) (k : Kwargs -> Prog) : Prog :=
  match v with
  | VDict d => k d
  | VExt _ => Invoke (CGlobal "dict" [v] [])
                (fun r => match r with VDict d => k d | _ => Raise TypeError end)
  | _ => Raise TypeError
  end.

(** [object.__init__], inherited by a class that defines none. *)
Definition object_init : Method := fun self args kw =>
  match bind_params [] args kw with
  | Some [] => Ret VNone
  | _ => Raise TypeError
  end.

(** ** Structural/Adapter-Pattern/main.py *)

Module CelsiusTemperatureSensor.

Definition __init__ : Method := fun self args kw =>
  match bind_params [lit "temperature"] args kw with
  | Some [temperature] => SetAttr self "temperature" temperature (Ret VNone)
  | _ => Raise TypeError
  end.

Definition get_temperature : Method := fun self args kw =>
  match bind_params [] args kw with
  | Some [] => GetAttr self "temperature" Ret
  | _ => Raise TypeError
  end.

End CelsiusTemperatureSensor.

Module FahrenheitTemperatureSensor.

Definition __init__ : Method := fun self args kw =>
  match bind_params [lit "temperature"] args kw with
  | Some [temperature] => SetAttr self "temperature" temperature (Ret VNone)
  | _ => Raise TypeError
  end.

Definition get_temperature : Method := fun self args kw =>
  match bind_params [] args kw with
  | Some [] => GetAttr self "temperature" Ret
  | _ => Raise TypeError
  end.

End FahrenheitTemperatureSensor.

Module TemperatureSensorAdapter.

Definition __init__ : Method := fun self args kw =>
  match bind_params [lit "fahrenheit_sensor"] args kw with
  | Some [fahrenheit_sensor] =>
      SetAttr self "fahrenheit_sensor" fahrenheit_sensor (Ret VNone)
  | _ => Raise TypeError
  end.

Definition get_temperature : Method := fun self args kw =>
  match bind_params [] args kw with
  | Some [] =>
      temperature_in_fahrenheit <-
        (fahrenheit_sensor <- GetAttr self "fahrenheit_sensor" Ret ;;
         call_method fahrenheit_sensor Sel.get_temperature [] []) ;;
      d <- py_sub temperature_in_fahrenheit (VInt 32) ;;
      p <- py_mul d (VInt 5) ;;
      py_truediv p (VInt 9)
  | _ => Raise TypeError
  end.

End TemperatureSensorAdapter.

(** ** Principles/Adapter-Pattern/main.py *)

Module DataStoreAdapter.

Definition read_data : Method := fun self args kw =>
  match bind_params [lit "identifier"] args kw with
  | Some [identifier] => Raise NotImplementedError
  | _ => Raise TypeError
  end.

Definition write_data : Method := fun self args kw =>
  match bind_params [lit "identifier"; lit "data"] args kw with
  | Some [identifier; data] => Raise NotImplementedError
  | _ => Raise TypeError
  end.

End DataStoreAdapter.

Module MySQLAdapter.

Definition __init__ : Method := fun self args kw =>
  match bind_params [lit "connection_details"] args kw with
  | Some [connection_details] =>
      connection <-
        unpack_kwargs connection_details
          (fun d => Invoke (CGlobal "mysql.connector.connect" [] d) Ret) ;;
      SetAttr self "connection" connection
        (cursor <-
           (connection <- GetAttr self "connection" Ret ;;
            call_method connection Sel.cursor [] []) ;;
         SetAttr self "cursor" cursor (Ret VNone))
  | _ => Raise TypeError
  end.

Definition read_data : Method := fun self args kw =>
  match bind_params [lit "table_name"] args kw with
  | Some [table_name] =>
      cursor <- GetAttr self "cursor" Ret ;;
      operation <- fstring "SELECT * FROM " table_name "" ;;
      (call_method cursor Sel.execute [operation] [] ;;;
       cursor <- GetAttr self "cursor" Ret ;;
       call_method cursor Sel.fetchall [] [])
  | _ => Raise TypeError
  end.

Definition write_data : Method := fun self args kw =>
  match bind_params [lit "table_name"; lit "data"] args kw with
  | Some [table_name; data] =>
      cursor <- GetAttr self "cursor" Ret ;;
      operation <- fstring "INSERT INTO " table_name " VALUES (%s, %s, %s)" ;;
      (call_method cursor Sel.execute [operation; data] [] ;;;
       connection <- GetAttr self "connection" Ret ;;
       (call_method connection Sel.commit [] [] ;;;
        Ret VNone))
  | _ => Raise TypeError
  end.

End MySQLAdapter.

Module MongoDBAdapter.

Definition __init__ : Method := fun self args kw =>
  match bind_params [lit "connection_uri"; lit "db_name"] args kw with
  | Some [connection_uri; db_name] =>
      client <- Invoke (CGlobal "pymongo.MongoClient" [connection_uri] []) Ret ;;
      SetAttr self "client" client
        (db <- (client <- GetAttr self "client" Ret ;;
                py_getitem client db_name) ;;
         SetAttr self "db" db (Ret VNone))
  | _ => Raise TypeError
  end.

Definition read_data : Method := fun self args kw =>
  match bind_params [lit "collection_name"] args kw with
  | Some [collection_name] =>
      collection <- (db <- GetAttr self "db" Ret ;;
                     py_getitem db collection_name) ;;
      found <- call_method collection Sel.find [VDict []] [] ;;
      py_list found
  | _ => Raise TypeError
  end.

Definition write_data : Method := fun self args kw =>
  match bind_params [lit "collection_name"; lit "data"] args kw with
  | Some [collection_name; data] =>
      collection <- (db <- GetAttr self "db" Ret ;;
                     py_getitem db collection_name) ;;
      (call_method collection Sel.insert_one [data] [] ;;;
       Ret VNone)
  | _ => Raise TypeError
  end.

End MongoDBAdapter.

Module S3Adapter.

Definition __init__ : Method := fun self args kw =>
  match bind_params [lit "bucket_name"] args kw with
  | Some [bucket_name] =>
      s3 <- Invoke (CGlobal "boto3.resource" [VStr (lit "s3")] []) Ret ;;
      SetAttr self "s3" s3
        (bucket <- (s3 <- GetAttr self "s3" Ret ;;
                    call_method s3 Sel.Bucket [bucket_name] []) ;;
         SetAttr self "bucket" bucket (Ret VNone))
  | _ => Raise TypeError
  end.

Definition read_data : Method := fun self args kw =>
  match bind_params [lit "file_name"] args kw with
  | Some [file_name] =>
      obj <- (bucket <- GetAttr self "bucket" Ret ;;
              call_method bucket Sel.Object [file_name] []) ;;
      response <- call_method obj Sel.get [] [] ;;
      body <- py_getitem response (VStr (lit "Body")) ;;
      content <- call_method body Sel.read [] [] ;;
      call_method content Sel.decode [VStr utf_8] []
  | _ => Raise TypeError
  end.

Definition write_data : Method := fun self args kw =>
  match bind_params [lit "file_name"; lit "data"] args kw with
  | Some [file_name; data] =>
      obj <- (bucket <- GetAttr self "bucket" Ret ;;
              call_method bucket Sel.Object [file_name] []) ;;
      encoded <- call_method data Sel.encode [VStr utf_8] [] ;;
      (call_method obj Sel.put [] [(lit "Body", encoded)] ;;;
       Ret VNone)
  | _ => Raise TypeError
  end.

End S3Adapter.

(** ** Classes and method resolution *)

(** Python's [object], the classes of the two files, and [Derived base own]:
    a class some client code derives from [base], defining the methods
    [own]. *)
Module Class.
Inductive t : Type :=
| object
| CelsiusTemperatureSensor
| FahrenheitTemperatureSensor
| TemperatureSensorAdapter
| DataStoreAdapter
| MySQLAdapter
| MongoDBAdapter
| S3Adapter
| Derived (base : t) (own : Sel.t -> option Method).
End Class.

Definition object_methods (m : Sel.t) : option Method :=
  match m with
  | Sel.__init__ => Some object_init
  | _ => None
  end.

(** The methods a class body defines. *)
Definition declared (c : Class.t) (m : Sel.t) : option Method :=
  match c, m with
  | Class.object, _ => object_methods m
  | Class.CelsiusTemperatureSensor, Sel.__init__ =>
      Some CelsiusTemperatureSensor.__init__
  | Class.CelsiusTemperatureSensor, Sel.get_temperature =>
      Some CelsiusTemperatureSensor.get_temperature
  | Class.FahrenheitTemperatureSensor, Sel.__init__ =>
      Some FahrenheitTemperatureSensor.__init__
  | Class.FahrenheitTemperatureSensor, Sel.get_temperature =>
      Some FahrenheitTemperatureSensor.get_temperature
  | Class.TemperatureSensorAdapter, Sel.__init__ =>
      Some TemperatureSensorAdapter.__init__
  | Class.TemperatureSensorAdapter, Sel.get_temperature =>
      Some TemperatureSensorAdapter.get_temperature
  | Class.DataStoreAdapter, Sel.read_data => Some DataStoreAdapter.read_data
  | Class.DataStoreAdapter, Sel.write_data => Some DataStoreAdapter.write_data
  | Class.MySQLAdapter, Sel.__init__ => Some MySQLAdapter.__init__
  | Class.MySQLAdapter, Sel.read_data => Some MySQLAdapter.read_data
  | Class.MySQLAdapter, Sel.write_data => Some MySQLAdapter.write_data
  | Class.MongoDBAdapter, Sel.__init__ => Some MongoDBAdapter.__init__
  | Class.MongoDBAdapter, Sel.read_data => Some MongoDBAdapter.read_data
  | Class.MongoDBAdapter, Sel.write_data => Some MongoDBAdapter.write_data
  | Class.S3Adapter, Sel.__init__ => Some S3Adapter.__init__
  | Class.S3Adapter, Sel.read_data => Some S3Adapter.read_data
  | Class.S3Adapter, Sel.write_data => Some S3Adapter.write_data
  | Class.Derived _ own, _ => own m
  | _, _ => None
  end.

(** The class a [class] statement derives from: the one named in its
    parentheses, [object] when it names none. *)
Definition parent (c : Class.t) : option Class.t :=
  match c with
  | Class.object => None
  | Class.MySQLAdapter | Class.MongoDBAdapter | Class.S3Adapter =>
      Some Class.DataStoreAdapter
  | Class.Derived b _ => Some b
  | _ => Some Class.object
  end.

(** Method resolution: the class itself, then its ancestors up to
    [object]. *)
Fixpoint resolve (c : Class.t) (m : Sel.t) : option Method :=
  match c with
  | Class.Derived b own =>
      match own m with
      | Some f => Some f
      | None => resolve b m
      end
  | _ =>
      match declared c m with
      | Some f => Some f
      | None =>
          match parent c with
          | Some p =>
              match declared p m with
              | Some f => Some f
              | None => object_methods m
              end
          | None => None
          end
      end
  end.

(** ** Execution *)

(** A heap object: its class and its attribute dictionary. *)
Record Obj : Type := mkObj {
  class_of : Class.t;
  attrs : gmap string Val
}.

(** One request to the outside and its answer. *)
Definition Event : Type := Call * (Val + Exc).

Record World (St : Type) : Type := mkWorld {
  heap : gmap N Obj;
  outside : St;
  trace : list Event
}.
Arguments mkWorld {St}.
Arguments heap {St}.
Arguments outside {St}.
Arguments trace {St}.

(** The outside world: it answers a request with a value or an exception
    and moves to a new state. *)
Definition Handler (St : Type) : Type := Call -> St -> (Val + Exc) * St.

Definition Outcome (St : Type) : Type := (Val + Exc) * World St.

(** [run h depth p w] executes [p]; [depth] is the number of nested calls
    of methods of heap objects still allowed before [RecursionError]. *)
Fixpoint run {St} (h : Handler St) (depth : nat) (p : Prog) (w : World St)
  {struct depth} : Outcome St :=
  let fix go (p : Prog) (w : World St) {struct p} : Outcome St :=
    match p with
    | Ret v => (inl v, w)
    | Raise e => (inr e, w)
    | GetAttr o n k =>
        match heap w !! o with
        | Some ob =>
            match attrs ob !! n with
            | Some v => go (k v) w
            | None => (inr AttributeError, w)
            end
        | None => (inr AttributeError, w)
        end
    | SetAttr o n v k =>
        match heap w !! o with
        | Some ob =>
            go k (mkWorld (<[o := mkObj (class_of ob) (<[n := v]> (attrs ob))]>
                             (heap w))
                          (outside w) (trace w))
        | None => (inr AttributeError, w)
        end
    | Invoke c k =>
        let '(r, s) := h c (outside w) in
        let w' := mkWorld (heap w) s (trace w ++ [(c, r)]) in
        match r with
        | inl v => go (k v) w'
        | inr e => (inr e, w')
        end
    | Send o m args kw k =>
        match heap w !! o with
        | Some ob =>
            match resolve (class_of ob) m with
            | Some body =>
                match depth with
                | O => (inr RecursionError, w)
                | S d =>
                    match run h d (body o args kw) w with
                    | (inl v, w') => go (k v) w'
                    | (inr e, w') => (inr e, w')
                    end
                end
            | None => (inr AttributeError, w)
            end
        | None => (inr AttributeError, w)
        end
    | Try b hd k =>
        match go b w with
        | (inl v, w') => go (k v) w'
        | (inr e, w') =>
            match go (hd e) w' with
            | (inl v, w'') => go (k v) w''
            | (inr e', w'') => (inr e', w'')
            end
        end
    end
  in go p w.

(** [recv.m( *args, **kw)] made by client code. *)
Definition call {St} (h : Handler St) (depth : nat) (recv : Val) (m : Sel.t)
  (args : list Val) (kw : Kwargs) (w : World St) : Outcome St :=
  run h depth (call_method recv m args kw) w.

(** [c( *args, **kw)]: a new object of class [c], initialised by
    [__init__]. *)
Definition instantiate {St} (h : Handler St) (depth : nat) (c : Class.t)
  (args : list Val) (kw : Kwargs) (w : World St) : Outcome St :=
  let l := fresh (dom (heap w)) in
  let w1 := mkWorld (<[l := mkObj c ∅]> (heap w)) (outside w) (trace w) in
  match run h depth (Send l Sel.__init__ args kw Ret) w1 with
  | (inl VNone, w2) => (inl (VObj l), w2)
  | (inl _, w2) => (inr TypeError, w2)
  | (inr e, w2) => (inr e, w2)
  end.

(** ** The store clients *)

(** Equality of values, as a store compares the fields of documents. *)
Fixpoint val_eqb (a b : Val) : bool :=
  match a, b with
  | VNone, VNone => true
  | VBool x, VBool y => Bool.eqb x y
  | VInt x, VInt y => x =? y
  | VFloat x, VFloat y => PrimFloat.eqb x y
  | VStr x, VStr y => bool_decide (x = y)
  | VBytes x, VBytes y => bool_decide (map Byte.to_N x = map Byte.to_N y)
  | VTuple x, VTuple y =>
      (fix all2 (x y : list Val) : bool :=
         match x, y with
         | [], [] => true
         | u :: x', v :: y' => val_eqb u v && all2 x' y'
         | _, _ => false
         end) x y
  | VList x, VList y =>
      (fix all2 (x y : list Val) : bool :=
         match x, y with
         | [], [] => true
         | u :: x', v :: y' => val_eqb u v && all2 x' y'
         | _, _ => false
         end) x y
  | VDict x, VDict y =>
      (fix all2 (x y : list (pystr * Val)) : bool :=
         match x, y with
         | [], [] => true
         | (j, u) :: x', (k, v) :: y' =>
             bool_decide (j = k) && val_eqb u v && all2 x' y'
         | _, _ => false
         end) x y
  | VExt x, VExt y => bool_decide (x = y)
  | VObj x, VObj y => bool_decide (x = y)
  | _, _ => false
  end.

(** The objects the client libraries hand out. *)
Inductive ExtObj : Type :=
| XConnection
| XCursor (connection : N) (result : option (list Val))
| XMongoClient
| XDatabase (name : pystr)
| XCollection (db name : pystr)
| XFound (docs : list Val)
| XInsertOneResult
| XResource
| XBucket (name : pystr)
| XObject (bucket key : pystr)
| XBody (content : list Byte.byte).

(** Modelled from the spec: the three Store Clients (the relational, the
    document and the object-storage driver) are external collaborators that
    no source file of this repository implements. This is the state they
    work on, after section 6 of the specification: the objects handed out
    so far, the tables of the relational session and their committed
    state, the collections of each database, the objects of each bucket. *)
Record Store : Type := mkStore {
  objects : gmap N ExtObj;
  tables : gmap pystr (list Val);
  committed : gmap pystr (list Val);
  collections : gmap (pystr * pystr) (list Val);
  buckets : gmap pystr (gmap pystr (list Byte.byte))
}.

Definition set_objects (o : gmap N ExtObj) (st : Store) : Store :=
  mkStore o (tables st) (committed st) (collections st) (buckets st).

Definition set_tables (t : gmap pystr (list Val)) (st : Store) : Store :=
  mkStore (objects st) t (committed st) (collections st) (buckets st).

Definition set_committed (t : gmap pystr (list Val)) (st : Store) : Store :=
  mkStore (objects st) (tables st) t (collections st) (buckets st).

Definition set_collections (c : gmap (pystr * pystr) (list Val)) (st : Store)
  : Store :=
  mkStore (objects st) (tables st) (committed st) c (buckets st).

Definition set_buckets (b : gmap pystr (gmap pystr (list Byte.byte)))
  (st : Store) : Store :=
  mkStore (objects st) (tables st) (committed st) (collections st) b.

(** A new object of a library, under a handle not in use. *)
Definition alloc (x : ExtObj) (st : Store) : (Val + Exc) * Store :=
  let h := fresh (dom (objects st)) in
  (inl (VExt h), set_objects (<[h := x]> (objects st)) st).

Definition fails (name : string) (st : Store) : (Val + Exc) * Store :=
  (inr (LibraryError name), st).

Fixpoint strip_prefix (p s : pystr) : option pystr :=
  match p, s with
  | [], _ => Some s
  | a :: p', b :: s' => if decide (a = b) then strip_prefix p' s' else None
  | _ :: _, [] => None
  end.

Definition strip_suffix (p s : pystr) : option pystr :=
  option_map (@rev N) (strip_prefix (rev p) (rev s)).

(** Letters, digits and the underscore. *)
Definition ident_char (c : N) : bool :=
  between 48 c 57 || between 65 c 90 || between 97 c 122 || (c =? 95)%N.

Definition sql_identifier (t : pystr) : bool :=
  match t with
  | [] => false
  | _ => forallb ident_char t
  end.

(** The two statement shapes the relational adapter sends. *)
Inductive Statement : Type :=
| SelectAll (table : pystr)
| Insert3 (table : pystr).

Definition parse_statement (operation : pystr) : option Statement :=
  match strip_prefix (lit "SELECT * FROM ") operation with
  | Some t => if sql_identifier t then Some (SelectAll t) else None
  | None =>
      match strip_prefix (lit "INSERT INTO ") operation with
      | Some r =>
          match strip_suffix (lit " VALUES (%s, %s, %s)") r with
          | Some t => if sql_identifier t then Some (Insert3 t) else None
          | None => None
          end
      | None => None
      end
  end.

(** A Python value as the relational store keeps it; it has no booleans. *)
Definition sql_value (v : Val) : option Val :=
  match v with
  | VNone | VInt _ | VFloat _ | VStr _ | VBytes _ => Some v
  | VBool b => Some (VInt (if b then 1 else 0))
  | _ => None
  end.

Fixpoint sql_values (vs : list Val) : option (list Val) :=
  match vs with
  | [] => Some []
  | v :: vs' =>
      match sql_value v, sql_values vs' with
      | Some x, Some xs => Some (x :: xs)
      | _, _ => None
      end
  end.

(** The row a sequence of exactly three parameters binds to. *)
Definition sql_row (params : Val) : option Val :=
  match params with
  | VTuple [a; b; c] | VList [a; b; c] =>
      option_map VTuple (sql_values [a; b; c])
  | _ => None
  end.

(** Modelled from the spec: the relational Store Client of section 6
    ([connect], [execute], [fetchall], [commit]), which is not part of this
    repository. A select of an existing table leaves its rows in the cursor;
    an insert of three values appends one row to an existing table of the
    session; a commit makes the session's tables the committed ones. *)
Definition relational_client (c : Call) (st : Store)
  : option ((Val + Exc) * Store) :=
  match c with
  | CGlobal "mysql.connector.connect" [] _ => Some (alloc XConnection st)
  | CMethod (VExt h) m args [] =>
      match objects st !! h with
      | Some XConnection =>
          match m, args with
          | Sel.cursor, [] => Some (alloc (XCursor h None) st)
          | Sel.commit, [] =>
              Some (inl VNone, set_committed (tables st) st)
          | _, _ => None
          end
      | Some (XCursor conn result) =>
          match m, args with
          | Sel.execute, [VStr operation] =>
              Some match parse_statement operation with
                   | Some (SelectAll t) =>
                       match tables st !! t with
                       | Some rows =>
                           (inl VNone,
                            set_objects
                              (<[h := XCursor conn (Some rows)]> (objects st))
                              st)
                       | None => fails "mysql.connector.errors.ProgrammingError" st
                       end
                   | _ => fails "mysql.connector.errors.ProgrammingError" st
                   end
          | Sel.execute, [VStr operation; params] =>
              Some match parse_statement operation, sql_row params with
                   | Some (Insert3 t), Some row =>
                       match tables st !! t with
                       | Some rows =>
                           (inl VNone,
                            set_tables (<[t := rows ++ [row]]> (tables st))
                              (set_objects
                                 (<[h := XCursor conn None]> (objects st)) st))
                       | None => fails "mysql.connector.errors.ProgrammingError" st
                       end
                   | _, _ => fails "mysql.connector.errors.ProgrammingError" st
                   end
          | Sel.fetchall, [] =>
              Some match result with
                   | Some rows =>
                       (inl (VList rows),
                        set_objects
                          (<[h := XCursor conn (Some [])]> (objects st)) st)
                   | None => fails "mysql.connector.errors.InterfaceError" st
                   end
          | _, _ => None
          end
      | _ => None
      end
  | _ => None
  end.

(** A document matches a filter when it has every field of the filter, with
    an equal value; the empty filter matches every document. *)
Definition matches (filter : list (pystr * Val)) (doc : Val) : bool :=
  forallb (fun '(k, v) =>
             match doc with
             | VDict fields =>
                 match dict_get k fields with
                 | Some v' => val_eqb v v'
                 | None => false
                 end
             | _ => false
             end) filter.

Definition documents (st : Store) (db name : pystr) : list Val :=
  default [] (collections st !! (db, name)).

(** Modelled from the spec: the document Store Client of section 6
    ([connect], the database and collection handles, [find], [insert_one]),
    which is not part of this repository. Names are not empty; a collection
    that was never written to is empty; an insert appends one document as
    it is given; iterating what [find] returned yields the matching
    documents once. *)
Definition document_client (c : Call) (st : Store)
  : option ((Val + Exc) * Store) :=
  match c with
  | CGlobal "pymongo.MongoClient" [VStr _] [] => Some (alloc XMongoClient st)
  | CGetItem (VExt h) (VStr name) =>
      match objects st !! h with
      | Some XMongoClient =>
          Some match name with
               | [] => fails "pymongo.errors.InvalidName" st
               | _ => alloc (XDatabase name) st
               end
      | Some (XDatabase db) =>
          Some match name with
               | [] => fails "pymongo.errors.InvalidName" st
               | _ => alloc (XCollection db name) st
               end
      | _ => None
      end
  | CMethod (VExt h) m args [] =>
      match objects st !! h with
      | Some (XCollection db name) =>
          match m, args with
          | Sel.find, [VDict filter] =>
              Some (alloc (XFound (List.filter (matches filter)
                                     (documents st db name))) st)
          | Sel.insert_one, [VDict doc] =>
              Some (alloc XInsertOneResult
                      (set_collections
                         (<[(db, name) := documents st db name ++ [VDict doc]]>
                            (collections st)) st))
          | Sel.insert_one, [_] => Some (inr TypeError, st)
          | _, _ => None
          end
      | _ => None
      end
  | CGlobal "list" [VExt h] [] =>
      match objects st !! h with
      | Some (XFound docs) =>
          Some (inl (VList docs),
                set_objects (<[h := XFound []]> (objects st)) st)
      | _ => None
      end
  | _ => None
  end.

(** Modelled from the spec: the object-storage Store Client of section 6
    ([resource], [Bucket], [Object], [get], [read], [put]), which is not
    part of this repository. The handles are made without contacting the
    store; [put] overwrites the whole object of an existing bucket; [get]
    answers with a mapping whose ["Body"] streams the stored bytes. *)
Definition object_client (c : Call) (st : Store)
  : option ((Val + Exc) * Store) :=
  match c with
  | CGlobal "boto3.resource" [VStr _] [] => Some (alloc XResource st)
  | CMethod (VExt h) m args kw =>
      match objects st !! h with
      | Some XResource =>
          match m, args, kw with
          | Sel.Bucket, [VStr name], [] => Some (alloc (XBucket name) st)
          | _, _, _ => None
          end
      | Some (XBucket b) =>
          match m, args, kw with
          | Sel.Object, [VStr key], [] => Some (alloc (XObject b key) st)
          | _, _, _ => None
          end
      | Some (XObject b key) =>
          match m, args, kw with
          | Sel.get, [], [] =>
              Some match buckets st !! b with
                   | Some objs =>
                       match objs !! key with
                       | Some content =>
                           let '(r, st') := alloc (XBody content) st in
                           match r with
                           | inl body => (inl (VDict [(lit "Body", body)]), st')
                           | inr e => (inr e, st')
                           end
                       | None => fails "botocore.errorfactory.NoSuchKey" st
                       end
                   | None => fails "botocore.errorfactory.NoSuchBucket" st
                   end
          | Sel.put, [], [(name, VBytes content)] =>
              Some (if decide (name = lit "Body") then
                      match buckets st !! b with
                      | Some objs =>
                          (inl (VDict []),
                           set_buckets (<[b := <[key := content]> objs]>
                                          (buckets st)) st)
                      | None => fails "botocore.errorfactory.NoSuchBucket" st
                      end
                    else fails "botocore.exceptions.ParamValidationError" st)
          | _, _, _ => None
          end
      | Some (XBody content) =>
          match m, args, kw with
          | Sel.read, [], [] =>
              Some (inl (VBytes content),
                    set_objects (<[h := XBody []]> (objects st)) st)
          | _, _, _ => None
          end
      | _ => None
      end
  | _ => None
  end.

(** The three clients together; a request none of them serves fails. *)
Definition store_clients : Handler Store := fun c st =>
  match relational_client c st with
  | Some r => r
  | None =>
      match document_client c st with
      | Some r => r
      | None =>
          match object_client c st with
          | Some r => r
          | None => fails "unsupported" st
          end
      end
  end.

(** ** Notions the properties are stated with *)

(** The conversion the specification gives, [(F - 32) * 5 / 9], evaluated
    on a reading [F]. *)
Definition fahrenheit_to_celsius (F : Val) : Prog :=
  d <- py_sub F (VInt 32) ;;
  p <- py_mul d (VInt 5) ;;
  py_truediv p (VInt 9).

(** [sensor.temperature = F] done by client code. *)
Definition set_temperature {St} (sensor : N) (F : Val) (w : World St)
  : World St :=
  match heap w !! sensor with
  | Some ob =>
      mkWorld (<[sensor := mkObj (class_of ob) (<["temperature" := F]> (attrs ob))]>
                 (heap w))
              (outside w) (trace w)
  | None => w
  end.

(** A class that is [DataStoreAdapter] or is derived from it without a
    [read_data] or a [write_data] of its own. *)
Fixpoint overrides_neither (c : Class.t) : Prop :=
  match c with
  | Class.DataStoreAdapter => True
  | Class.Derived b own =>
      own Sel.read_data = None /\ own Sel.write_data = None
      /\ overrides_neither b
  | _ => False
  end.

(** The number of [%s] markers of a statement, read from left to right:
    the number of positional values the driver binds to it. *)
Fixpoint placeholders (s : pystr) : nat :=
  match s with
  | [] => 0
  | a :: s' =>
      if (a =? 37)%N then
        match s' with
        | b :: r => if (b =? 115)%N then S (placeholders r) else placeholders s'
        | [] => 0
        end
      else placeholders s'
  end.

(** The statements a trace asks a cursor to execute, with the parameters
    bound to each. *)
Fixpoint statements (tr : list Event) : list (pystr * option Val) :=
  match tr with
  | [] => []
  | (CMethod _ Sel.execute [VStr operation] _, _) :: tr' =>
      (operation, None) :: statements tr'
  | (CMethod _ Sel.execute [VStr operation; params] _, _) :: tr' =>
      (operation, Some params) :: statements tr'
  | _ :: tr' => statements tr'
  end.

(** The classes of the two source files (and [object]). *)
Definition repo_class (c : Class.t) : bool :=
  match c with
  | Class.Derived _ _ => false
  | _ => true
  end.

(** A heap that holds instances of the classes of the two files only. *)
Definition repo_heap {St} (w : World St) : Prop :=
  map_Forall (fun _ ob => repo_class (class_of ob) = true) (heap w).

Definition concrete_adapter (c : Class.t) : bool :=
  match c with
  | Class.MySQLAdapter | Class.MongoDBAdapter | Class.S3Adapter => true
  | _ => false
  end.

Definition data_operation (m : Sel.t) : bool :=
  match m with
  | Sel.read_data | Sel.write_data => true
  | _ => false
  end.

(** Every failure among the requests [new] ended the operation: it is the
    last request made, and its exception is the result [r]. *)
Definition propagated (r : Val + Exc) (new : list Event) : Prop :=
  forall pre c e post,
    new = pre ++ (c, inr e) :: post -> post = [] /\ r = inr e.

(** A request that was answered with a value. *)
Definition answered (ev : Event) : Prop :=
  match snd ev with
  | inl _ => True
  | inr _ => False
  end.

(** The requests [new] of an operation that ended with [r]: all were
    answered, or all but the last, whose exception is [r]. *)
Definition orderly (r : Val + Exc) (new : list Event) : Prop :=
  Forall answered new
  \/ exists pre c e,
       new = pre ++ [(c, inr e)] /\ Forall answered pre /\ r = inr e.

(** A program that assigns no attribute, handles no exception and
    constructs nothing. *)
Inductive readonly : Prog -> Prop :=
| readonly_Ret v : readonly (Ret v)
| readonly_Raise e : readonly (Raise e)
| readonly_GetAttr o n k : (forall v, readonly (k v)) -> readonly (GetAttr o n k)
| readonly_Invoke c k : (forall v, readonly (k v)) -> readonly (Invoke c k)
| readonly_Send o m a kw k :
    m <> Sel.__init__ -> (forall v, readonly (k v)) ->
    readonly (Send o m a kw k).




(** The requests of a trace that write an object. *)
Definition puts (tr : list Event) : list Event :=
  List.filter (fun ev => match fst ev with
                         | CMethod _ Sel.put _ _ => true
                         | _ => false
                         end) tr.

(** An adapter at address [l] that holds a bucket handle of the store
    clients for the bucket named [b]. *)
Definition s3_adapter (w : World Store) (l : N) (b : pystr) : Prop :=
  exists fields hb,
    heap w !! l = Some (mkObj Class.S3Adapter fields)
    /\ fields !! "bucket" = Some (VExt hb)
    /\ objects (outside w) !! hb = Some (XBucket b).

(** An adapter at address [l] that holds a database handle of the store
    clients for the database named [db]. *)
Definition mongo_adapter (w : World Store) (l : N) (db : pystr) : Prop :=
  exists fields hd,
    heap w !! l = Some (mkObj Class.MongoDBAdapter fields)
    /\ fields !! "db" = Some (VExt hd)
    /\ objects (outside w) !! hd = Some (XDatabase db).

(** An adapter at address [l] that holds a session of the store clients
    and a cursor of that session. *)
Definition mysql_adapter (w : World Store) (l : N) : Prop :=
  exists fields hc hn result,
    heap w !! l = Some (mkObj Class.MySQLAdapter fields)
    /\ fields !! "cursor" = Some (VExt hc)
    /\ fields !! "connection" = Some (VExt hn)
    /\ objects (outside w) !! hc = Some (XCursor hn result)
    /\ objects (outside w) !! hn = Some XConnection.

(** The classes whose state the frame property is about, and their
    operations. *)
Definition adapter_class (c : Class.t) : bool :=
  match c with
  | Class.MySQLAdapter | Class.MongoDBAdapter | Class.S3Adapter
  | Class.TemperatureSensorAdapter => true
  | _ => false
  end.

Definition adapter_operation (m : Sel.t) : bool :=
  match m with
  | Sel.read_data | Sel.write_data | Sel.get_temperature => true
  | _ => false
  end.

(** What a store holds, the handles apart. *)
Definition contents (st : Store)
  : gmap pystr (list Val) * gmap pystr (list Val)
    * gmap (pystr * pystr) (list Val)
    * gmap pystr (gmap pystr (list Byte.byte)) :=
  (tables st, committed st, collections st, buckets st).

(** The objects of the clients that stand for a place in a store; the
    others (cursors, streams) are consumed as they are read. *)
Definition stable (x : ExtObj) : bool :=
  match x with
  | XCursor _ _ | XFound _ | XBody _ => false
  | _ => true
  end.

(** The handles given out stay what they are: a cursor stays a cursor of
    its session, any other place stays that place. *)
Definition extends (st st' : Store) : Prop :=
  (forall hd x, stable x = true -> objects st !! hd = Some x ->
                objects st' !! hd = Some x)
  /\ (forall hd conn r, objects st !! hd = Some (XCursor conn r) ->
                        exists r', objects st' !! hd = Some (XCursor conn r')).

(** ** Sample worlds *)

(** An outside world that serves no request. *)
Definition nobody : Handler unit :=
  fun c s => (inr (LibraryError "unavailable"), s).

(** [TemperatureSensorAdapter(FahrenheitTemperatureSensor(F))]: the sensor
    at address 0, the adapter at address 1. *)
Definition sensor_world (F : Val) : World unit :=
  mkWorld
    (<[1%N := mkObj Class.TemperatureSensorAdapter
                {["fahrenheit_sensor" := VObj 0]}]>
       (<[0%N := mkObj Class.FahrenheitTemperatureSensor
                   {["temperature" := F]}]> ∅))
    tt [].

(** An instance of the interface itself at address 0, and at address 1 an
    instance of a class derived from it with an empty body. *)
Definition abstract_world : World unit :=
  mkWorld
    (<[1%N := mkObj (Class.Derived Class.DataStoreAdapter (fun _ => None)) ∅]>
       (<[0%N := mkObj Class.DataStoreAdapter ∅]> ∅))
    tt [].

(** A store with an empty table [mytable] and an empty bucket
    [mybucket]. *)
Definition demo_store : Store :=
  mkStore ∅ {[lit "mytable" := []]} {[lit "mytable" := []]} ∅
    {[lit "mybucket" := ∅]}.

(** The three adapters of the example usage, constructed in its order:
    the relational one at address 0, the document one at address 1, the
    object-storage one at address 2. *)
Definition demo_world : World Store :=
  let w0 := mkWorld ∅ demo_store [] in
  let w1 :=
    snd (instantiate store_clients 1 Class.MySQLAdapter
           [VDict [(lit "host", VStr (lit "localhost"));
                   (lit "user", VStr (lit "user"));
                   (lit "password", VStr (lit "password"));
                   (lit "database", VStr (lit "dbname"))]] [] w0) in
  let w2 :=
    snd (instantiate store_clients 1 Class.MongoDBAdapter
           [VStr (lit "mongodb://localhost:27017/"); VStr (lit "dbname")]
           [] w1) in
  snd (instantiate store_clients 1 Class.S3Adapter
         [VStr (lit "mybucket")] [] w2).



(** The world of the example usage with two documents in the collection
    [mycollection] of the database [dbname]. *)
Definition filled_world : World Store :=
  mkWorld (heap demo_world)
    (set_collections
       {[(lit "dbname", lit "mycollection")
         := [VDict [(lit "key", VStr (lit "value"))];
             VDict [(lit "key", VStr (lit "other")); (lit "n", VInt 2)]]]}
       (outside demo_world))
    (trace demo_world).

(** ** Further notions and sample worlds *)

(** The two sensor classes. *)
Definition plain_sensor (c : Class.t) : bool :=
  match c with
  | Class.CelsiusTemperatureSensor | Class.FahrenheitTemperatureSensor => true
  | _ => false
  end.

(** The values of the builtin types. *)
Definition builtin_value (v : Val) : bool :=
  match v with
  | VExt _ | VObj _ => false
  | _ => true
  end.

(** Nothing constructed yet, and an outside that serves no request. *)
Definition empty_world : World unit := mkWorld ∅ tt [].

(** Nothing constructed yet, on the store of the example usage. *)
Definition start_world : World Store := mkWorld ∅ demo_store [].

(** Two adapters in a row around a Fahrenheit sensor: the sensor at address
    0, the adapter around it at address 1, the adapter around that one at
    address 2. *)
Definition nested_world (F : Val) : World unit :=
  mkWorld
    (<[2%N := mkObj Class.TemperatureSensorAdapter
                {["fahrenheit_sensor" := VObj 1]}]>
       (heap (sensor_world F)))
    tt [].

(** An adapter, at address 0, whose [fahrenheit_sensor] was set to the
    adapter itself. *)
Definition looped_world : World unit :=
  mkWorld
    (<[0%N := mkObj Class.TemperatureSensorAdapter
                {["fahrenheit_sensor" := VObj 0]}]> ∅)
    tt [].

(** [TemperatureSensorAdapter(CelsiusTemperatureSensor(C))]: the sensor at
    address 0, the adapter at address 1. *)
Definition misused_world (C : Val) : World unit :=
  mkWorld
    (<[1%N := mkObj Class.TemperatureSensorAdapter
                {["fahrenheit_sensor" := VObj 0]}]>
       (<[0%N := mkObj Class.CelsiusTemperatureSensor
                   {["temperature" := C]}]> ∅))
    tt [].

(** The values [**] cannot unpack: the builtin types other than [dict]. *)
Definition not_mapping (v : Val) : bool :=
  match v with
  | VDict _ | VExt _ | VObj _ => false
  | _ => true
  end.

(** The interface and its three implementations. *)
Definition data_store_class (c : Class.t) : bool :=
  match c with
  | Class.DataStoreAdapter | Class.MySQLAdapter | Class.MongoDBAdapter
  | Class.S3Adapter => true
  | _ => false
  end.

(** The connection details of the example usage. *)
Definition demo_details : Kwargs :=
  [(lit "host", VStr (lit "localhost"));
   (lit "user", VStr (lit "user"));
   (lit "password", VStr (lit "password"));
   (lit "database", VStr (lit "dbname"))].

(** The demonstration world with one more object in the bucket, whose
    content is the single byte [0xff]. *)
Definition raw_world : World Store :=
  mkWorld (heap demo_world)
    (set_buckets {[lit "mybucket" := {[lit "raw.bin" := [Byte.xff]]}]}
       (outside demo_world))
    (trace demo_world).

(** The demonstration world with the object [a.txt] in the bucket, whose
    content is the two bytes of [hi]. *)
Definition stored_world : World Store :=
  mkWorld (heap demo_world)
    (set_buckets
       {[lit "mybucket" := {[lit "a.txt" := [Byte.x68; Byte.x69]]}]}
       (outside demo_world))
    (trace demo_world).

(** * Properties *)

(** ** Execution, step by step *)

Section Run.
Context {St : Type} (h : Handler St).

Lemma run_Ret d v (w : World St) : run h d (Ret v) w = (inl v, w).
Proof. destruct d; reflexivity. Qed.

Lemma run_Raise d e (w : World St) : run h d (Raise e) w = (inr e, w).
Proof. destruct d; reflexivity. Qed.

Lemma run_GetAttr d o n k (w : World St) :
  run h d (GetAttr o n k) w =
  match heap w !! o with
  | Some ob =>
      match attrs ob !! n with
      | Some v => run h d (k v) w
      | None => (inr AttributeError, w)
      end
  | None => (inr AttributeError, w)
  end.
Proof. destruct d; reflexivity. Qed.

Lemma run_SetAttr d o n v k (w : World St) :
  run h d (SetAttr o n v k) w =
  match heap w !! o with
  | Some ob =>
      run h d k (mkWorld (<[o := mkObj (class_of ob) (<[n := v]> (attrs ob))]>
                            (heap w))
                         (outside w) (trace w))
  | None => (inr AttributeError, w)
  end.
Proof. destruct d; reflexivity. Qed.

Lemma run_Invoke d c k (w : World St) :
  run h d (Invoke c k) w =
  let '(r, s) := h c (outside w) in
  let w' := mkWorld (heap w) s (trace w ++ [(c, r)]) in
  match r with
  | inl v => run h d (k v) w'
  | inr e => (inr e, w')
  end.
Proof. destruct d; reflexivity. Qed.

Lemma run_Send_0 o m a kw k (w : World St) :
  run h 0 (Send o m a kw k) w =
  match heap w !! o with
  | Some ob =>
      match resolve (class_of ob) m with
      | Some body => (inr RecursionError, w)
      | None => (inr AttributeError, w)
      end
  | None => (inr AttributeError, w)
  end.
Proof. reflexivity. Qed.

Lemma run_Send d o m a kw k (w : World St) :
  run h (S d) (Send o m a kw k) w =
  match heap w !! o with
  | Some ob =>
      match resolve (class_of ob) m with
      | Some body =>
          match run h d (body o a kw) w with
          | (inl v, w') => run h (S d) (k v) w'
          | (inr e, w') => (inr e, w')
          end
      | None => (inr AttributeError, w)
      end
  | None => (inr AttributeError, w)
  end.
Proof. reflexivity. Qed.

Lemma run_Try d b hd k (w : World St) :
  run h d (Try b hd k) w =
  match run h d b w with
  | (inl v, w') => run h d (k v) w'
  | (inr e, w') =>
      match run h d (hd e) w' with
      | (inl v, w'') => run h d (k v) w''
      | (inr e', w'') => (inr e', w'')
      end
  end.
Proof. destruct d; reflexivity. Qed.

Lemma run_bind d p f (w : World St) :
  run h d (bind p f) w =
  match run h d p w with
  | (inl v, w') => run h d (f v) w'
  | (inr e, w') => (inr e, w')
  end.
Proof.
  revert w. induction p as [v|e|o n k IH|o n v k IH|c k IH|o m a kw k IH|b IHb hd IHh k IH];
    intros w; simpl bind.
  - now rewrite run_Ret.
  - now rewrite run_Raise.
  - rewrite !run_GetAttr.
    destruct (heap w !! o) as [ob|]; [|reflexivity].
    destruct (attrs ob !! n); [apply IH|reflexivity].
  - rewrite !run_SetAttr.
    destruct (heap w !! o); [apply IH|reflexivity].
  - rewrite !run_Invoke.
    destruct (h c (outside w)) as [[v|e] s]; [apply IH|reflexivity].
  - destruct d as [|d].
    + rewrite !run_Send_0.
      destruct (heap w !! o) as [ob|]; [|reflexivity].
      destruct (resolve (class_of ob) m); reflexivity.
    + rewrite !run_Send.
      destruct (heap w !! o) as [ob|]; [|reflexivity].
      destruct (resolve (class_of ob) m) as [body|]; [|reflexivity].
      destruct (run h d (body o a kw) w) as [[v|e] w']; [apply IH|reflexivity].
  - rewrite !run_Try.
    destruct (run h d b w) as [[v|e] w']; [apply IH|].
    destruct (run h d (hd e) w') as [[v|e'] w'']; [apply IH|reflexivity].
Qed.

End Run.

(** ** The unit-conversion adapter *)

Section Sensor.
Context {St : Type} (h : Handler St).

Lemma adapter_reads_sensor d (w : World St) a s fa fs F :
  heap w !! a = Some (mkObj Class.TemperatureSensorAdapter fa) ->
  fa !! "fahrenheit_sensor" = Some (VObj s) ->
  heap w !! s = Some (mkObj Class.FahrenheitTemperatureSensor fs) ->
  fs !! "temperature" = Some F ->
  call h (S (S d)) (VObj a) Sel.get_temperature [] [] w
  = run h (S d) (fahrenheit_to_celsius F) w.
Proof.
  intros Ha Hfa Hs Hfs. unfold call, call_method.
  rewrite run_Send, Ha. simpl resolve.
  unfold TemperatureSensorAdapter.get_temperature. simpl bind_params.
  cbv iota.
  rewrite run_bind, run_bind, run_GetAttr, Ha. simpl attrs. rewrite Hfa.
  rewrite run_Ret. unfold call_method.
  rewrite run_Send, Hs. simpl resolve.
  unfold FahrenheitTemperatureSensor.get_temperature. simpl bind_params.
  cbv iota.
  rewrite run_GetAttr, Hs. simpl attrs. rewrite Hfs, !run_Ret.
  unfold fahrenheit_to_celsius.
  destruct (run h (S d) _ w) as [[v|e] w']; [now rewrite run_Ret|reflexivity].
Qed.

Lemma celsius_of_int d (w : World St) n f :
  int_true_divide ((n - 32) * 5) 9 = Some f ->
  run h d (fahrenheit_to_celsius (VInt n)) w = (inl (VFloat f), w).
Proof.
  intros Hf. unfold fahrenheit_to_celsius.
  rewrite run_bind.
  change (py_sub (VInt n) (VInt 32)) with (Ret (VInt (n - 32))).
  rewrite run_Ret, run_bind.
  change (py_mul (VInt (n - 32)) (VInt 5)) with (Ret (VInt ((n - 32) * 5))).
  rewrite run_Ret.
  change (py_truediv (VInt ((n - 32) * 5)) (VInt 9))
    with (match int_true_divide ((n - 32) * 5) 9 with
          | Some f => Ret (VFloat f)
          | None => Raise OverflowError
          end).
  rewrite Hf. apply run_Ret.
Qed.

Lemma celsius_of_float d (w : World St) x :
  run h d (fahrenheit_to_celsius (VFloat x)) w
  = (inl (VFloat (PrimFloat.div (PrimFloat.mul (PrimFloat.sub x 32) 5) 9)), w).
Proof.
  unfold fahrenheit_to_celsius.
  rewrite run_bind. unfold py_sub, float_op. simpl as_num. cbv iota.
  unfold to_float. change (float_of_int 32) with (Some 32%float).
  cbv iota. rewrite run_Ret.
  rewrite run_bind. unfold py_mul, float_op. simpl as_num. cbv iota.
  unfold to_float. change (float_of_int 5) with (Some 5%float).
  cbv iota. rewrite run_Ret.
  unfold py_truediv. simpl as_num. cbv iota.
  unfold to_float. change (float_of_int 9) with (Some 9%float).
  cbv iota. change (PrimFloat.eqb 9 zero) with false. cbv iota.
  apply run_Ret.
Qed.

End Sensor.

(** C2. Whatever the wrapped Fahrenheit sensor currently reads, [F], a call
    of [TemperatureSensorAdapter.get_temperature] evaluates
    [(F - 32) * 5 / 9] on it and changes nothing: for an [int] reading the
    result is the [float] nearest to the exact quotient, for a [float]
    reading the three binary64 operations; 77 gives 25.0 and 32 gives 0.0;
    and once the sensor's reading is reassigned the next call converts the
    new reading, so nothing is cached. *)
Theorem get_temperature_converts {St} (h : Handler St) d (w : World St)
  a s fa fs F :
  heap w !! a = Some (mkObj Class.TemperatureSensorAdapter fa) ->
  fa !! "fahrenheit_sensor" = Some (VObj s) ->
  heap w !! s = Some (mkObj Class.FahrenheitTemperatureSensor fs) ->
  fs !! "temperature" = Some F ->
  let get_temperature w :=
    call h (S (S d)) (VObj a) Sel.get_temperature [] [] w in
  get_temperature w = run h (S d) (fahrenheit_to_celsius F) w
  /\ (forall n f, F = VInt n ->
        int_true_divide ((n - 32) * 5) 9 = Some f ->
        get_temperature w = (inl (VFloat f), w))
  /\ (forall x, F = VFloat x ->
        get_temperature w
        = (inl (VFloat (PrimFloat.div
                          (PrimFloat.mul (PrimFloat.sub x 32) 5) 9)), w))
  /\ (F = VInt 77 -> get_temperature w = (inl (VFloat 25), w))
  /\ (F = VInt 32 -> get_temperature w = (inl (VFloat 0), w))
  /\ (forall F',
        get_temperature (set_temperature s F' w)
        = run h (S d) (fahrenheit_to_celsius F') (set_temperature s F' w)).
Proof.
  intros Ha Hfa Hs Hfs get_temperature. subst get_temperature. cbv beta.
  pose proof (adapter_reads_sensor h d w a s fa fs F Ha Hfa Hs Hfs) as Hcall.
  repeat split.
  - exact Hcall.
  - intros n f -> Hf. rewrite Hcall. now apply celsius_of_int.
  - intros x ->. rewrite Hcall. apply celsius_of_float.
  - intros ->. rewrite Hcall. now apply celsius_of_int.
  - intros ->. rewrite Hcall. now apply celsius_of_int.
  - intros F'.
    assert (a <> s) as Hne by (intros ->; rewrite Ha in Hs; discriminate).
    apply adapter_reads_sensor
      with (fa := fa) (s := s) (fs := <["temperature" := F']> fs).
    + unfold set_temperature. rewrite Hs. simpl heap.
      now rewrite lookup_insert_ne.
    + exact Hfa.
    + unfold set_temperature. rewrite Hs. simpl heap.
      now rewrite lookup_insert_eq.
    + apply lookup_insert_eq.
Qed.

Lemma get_temperature_converts_witness :
  call nobody 2 (VObj 1) Sel.get_temperature [] [] (sensor_world (VInt 77))
  = (inl (VFloat 25), sensor_world (VInt 77))
  /\ call nobody 2 (VObj 1) Sel.get_temperature [] []
       (set_temperature 0 (VInt 32) (sensor_world (VInt 77)))
     = run nobody 1 (fahrenheit_to_celsius (VInt 32))
         (set_temperature 0 (VInt 32) (sensor_world (VInt 77))).
Proof.
  pose proof (get_temperature_converts nobody 0 (sensor_world (VInt 77))
                1%N 0%N {["fahrenheit_sensor" := VObj 0]}
                {["temperature" := VInt 77]} (VInt 77)
                eq_refl eq_refl eq_refl eq_refl) as H.
  cbv zeta in H. split.
  - exact (proj1 (proj2 (proj2 (proj2 H))) eq_refl).
  - exact (proj2 (proj2 (proj2 (proj2 (proj2 H)))) (VInt 32)).
Defined.

(** ** The abstract interface *)

Lemma resolve_abstract c :
  overrides_neither c ->
  resolve c Sel.read_data = Some DataStoreAdapter.read_data
  /\ resolve c Sel.write_data = Some DataStoreAdapter.write_data.
Proof.
  induction c as [| | | | | | | |b IH own]; simpl; try contradiction.
  - intros _. split; reflexivity.
  - intros (Hr & Hw & Hb). rewrite Hr, Hw. now apply IH.
Qed.

(** C3. On an instance of [DataStoreAdapter] itself, or of any class derived
    from it that overrides neither operation, [read_data(identifier)] and
    [write_data(identifier, data)] raise [NotImplementedError], whatever the
    arguments, without a request to the outside and without a change of
    state. *)
Theorem abstract_operations_not_implemented {St} (h : Handler St) d
  (w : World St) l ob identifier data :
  heap w !! l = Some ob ->
  overrides_neither (class_of ob) ->
  call h (S d) (VObj l) Sel.read_data [identifier] [] w
  = (inr NotImplementedError, w)
  /\ call h (S d) (VObj l) Sel.write_data [identifier; data] [] w
     = (inr NotImplementedError, w).
Proof.
  intros Hl Hc. destruct (resolve_abstract _ Hc) as [Hr Hw].
  unfold call, call_method. rewrite !run_Send, Hl, Hr, Hw.
  unfold DataStoreAdapter.read_data, DataStoreAdapter.write_data.
  simpl bind_params. cbv iota. now rewrite !run_Raise.
Qed.

Lemma abstract_operations_not_implemented_witness :
  call nobody 1 (VObj 1) Sel.read_data [VStr (lit "f.txt")] [] abstract_world
  = (inr NotImplementedError, abstract_world)
  /\ call nobody 1 (VObj 1) Sel.write_data [VStr (lit "f.txt"); VNone] []
       abstract_world
     = (inr NotImplementedError, abstract_world).
Proof.
  apply (abstract_operations_not_implemented nobody 0 abstract_world 1%N
           (mkObj (Class.Derived Class.DataStoreAdapter (fun _ => None)) ∅)).
  - reflexivity.
  - simpl. repeat split.
Defined.

(** ** UTF-8 *)

Ltac dlia := zify; Z.to_euclidean_division_equations; lia.

Ltac between_true :=
  unfold between;
  repeat match goal with
         | |- context [N.eqb ?a ?b] => destruct (N.eqb_spec a b)
         end;
  rewrite ?andb_true_iff, ?N.leb_le; dlia.

Lemma to_N_byte_of n : (n < 256)%N -> Byte.to_N (byte_of n) = n.
Proof.
  intros Hn. unfold byte_of.
  destruct (Byte.of_N n) as [b|] eqn:E.
  - now apply Byte.to_of_N.
  - apply Byte.of_N_None_iff in E. lia.
Qed.

Lemma utf8_decode_cons b0 r0 :
  utf8_decode (b0 :: r0) =
  let x0 := Byte.to_N b0 in
  (if x0 <? 0x80 then option_map (cons x0) (utf8_decode r0)
   else if between 0xC2 x0 0xDF then
     match r0 with
     | b1 :: r1 =>
         let x1 := Byte.to_N b1 in
         if between 0x80 x1 0xBF
         then option_map (cons ((x0 - 0xC0) * 64 + (x1 - 0x80)))
                         (utf8_decode r1)
         else None
     | _ => None
     end
   else if between 0xE0 x0 0xEF then
     match r0 with
     | b1 :: b2 :: r2 =>
         let x1 := Byte.to_N b1 in
         let x2 := Byte.to_N b2 in
         let lo := if x0 =? 0xE0 then 0xA0 else 0x80 in
         let hi := if x0 =? 0xED then 0x9F else 0xBF in
         if between lo x1 hi && between 0x80 x2 0xBF
         then option_map
                (cons ((x0 - 0xE0) * 4096 + (x1 - 0x80) * 64 + (x2 - 0x80)))
                (utf8_decode r2)
         else None
     | _ => None
     end
   else if between 0xF0 x0 0xF4 then
     match r0 with
     | b1 :: b2 :: b3 :: r3 =>
         let x1 := Byte.to_N b1 in
         let x2 := Byte.to_N b2 in
         let x3 := Byte.to_N b3 in
         let lo := if x0 =? 0xF0 then 0x90 else 0x80 in
         let hi := if x0 =? 0xF4 then 0x8F else 0xBF in
         if between lo x1 hi && between 0x80 x2 0xBF && between 0x80 x3 0xBF
         then option_map
                (cons ((x0 - 0xF0) * 262144 + (x1 - 0x80) * 4096
                       + (x2 - 0x80) * 64 + (x3 - 0x80)))
                (utf8_decode r3)
         else None
     | _ => None
     end
   else None)%N.
Proof. reflexivity. Qed.

(** Decoding undoes the encoding of one code point, whatever follows. *)
Lemma utf8_decode_encode_cp c bs rest :
  utf8_encode_cp c = Some bs ->
  utf8_decode (bs ++ rest) = option_map (cons c) (utf8_decode rest).
Proof.
  unfold utf8_encode_cp.
  destruct (N.ltb_spec c 0x80) as [H1|H1].
  { intros [= <-]. simpl app. rewrite utf8_decode_cons. cbv zeta.
    rewrite to_N_byte_of by lia.
    now replace (c <? 0x80)%N with true by (symmetry; apply N.ltb_lt; lia). }
  destruct (N.ltb_spec c 0x800) as [H2|H2].
  { intros [= <-]. simpl app. rewrite utf8_decode_cons. cbv zeta.
    rewrite !to_N_byte_of by dlia.
    replace (0xC0 + c / 64 <? 0x80)%N with false
      by (symmetry; apply N.ltb_ge; dlia).
    replace (between 0xC2 (0xC0 + c / 64) 0xDF) with true
      by (symmetry; between_true).
    replace (between 0x80 (0x80 + c mod 64) 0xBF) with true
      by (symmetry; between_true).
    do 2 f_equal. dlia. }
  destruct (N.ltb_spec c 0x10000) as [H3|H3].
  { destruct ((0xD800 <=? c)%N && (c <=? 0xDFFF)%N) eqn:Hs; [discriminate|].
    assert (c < 0xD800 \/ 0xDFFF < c)%N as Hc.
    { apply andb_false_iff in Hs.
      destruct Hs as [Hs|Hs]; apply N.leb_gt in Hs; lia. }
    intros [= <-]. simpl app. rewrite utf8_decode_cons. cbv zeta.
    rewrite !to_N_byte_of by dlia.
    replace (0xE0 + c / 4096 <? 0x80)%N with false
      by (symmetry; apply N.ltb_ge; dlia).
    replace (between 0xC2 (0xE0 + c / 4096) 0xDF) with false
      by (symmetry; unfold between; apply andb_false_iff; right;
          apply N.leb_gt; dlia).
    replace (between 0xE0 (0xE0 + c / 4096) 0xEF) with true
      by (symmetry; between_true).
    replace (between (if (0xE0 + c / 4096 =? 0xE0)%N then 0xA0 else 0x80)%N
               (0x80 + (c / 64) mod 64)
               (if (0xE0 + c / 4096 =? 0xED)%N then 0x9F else 0xBF)%N)
      with true by (symmetry; between_true).
    replace (between 0x80 (0x80 + c mod 64) 0xBF) with true
      by (symmetry; between_true).
    simpl andb. cbv iota. do 2 f_equal. dlia. }
  destruct (N.ltb_spec c 0x110000) as [H4|H4]; [|discriminate].
  intros [= <-]. simpl app. rewrite utf8_decode_cons. cbv zeta.
  rewrite !to_N_byte_of by dlia.
  replace (0xF0 + c / 262144 <? 0x80)%N with false
    by (symmetry; apply N.ltb_ge; dlia).
  replace (between 0xC2 (0xF0 + c / 262144) 0xDF) with false
    by (symmetry; unfold between; apply andb_false_iff; right;
        apply N.leb_gt; dlia).
  replace (between 0xE0 (0xF0 + c / 262144) 0xEF) with false
    by (symmetry; unfold between; apply andb_false_iff; right;
        apply N.leb_gt; dlia).
  replace (between 0xF0 (0xF0 + c / 262144) 0xF4) with true
    by (symmetry; between_true).
  replace (between (if (0xF0 + c / 262144 =? 0xF0)%N then 0x90 else 0x80)%N
             (0x80 + (c / 4096) mod 64)
             (if (0xF0 + c / 262144 =? 0xF4)%N then 0x8F else 0xBF)%N)
    with true by (symmetry; between_true).
  replace (between 0x80 (0x80 + (c / 64) mod 64) 0xBF) with true
    by (symmetry; between_true).
  replace (between 0x80 (0x80 + c mod 64) 0xBF) with true
    by (symmetry; between_true).
  simpl andb. cbv iota. do 2 f_equal. dlia.
Qed.

(** Text that UTF-8 can encode is encoded. *)
Lemma utf8_encode_total s :
  Forall scalar_value s -> exists bs, utf8_encode s = Some bs.
Proof.
  induction 1 as [|c s Hc _ [bs IH]]; [now exists []|].
  simpl. rewrite IH. unfold utf8_encode_cp, scalar_value in *.
  destruct (N.ltb_spec c 0x80); [eauto|].
  destruct (N.ltb_spec c 0x800); [eauto|].
  destruct (N.ltb_spec c 0x10000).
  - replace ((0xD800 <=? c)%N && (c <=? 0xDFFF)%N) with false; [eauto|].
    symmetry. apply andb_false_iff.
    destruct Hc as [Hc|Hc]; [left|right]; apply N.leb_gt; lia.
  - destruct (N.ltb_spec c 0x110000); [eauto|lia].
Qed.

(** Decoding is a left inverse of encoding. *)
Lemma utf8_decode_encode s bs :
  utf8_encode s = Some bs -> utf8_decode bs = Some s.
Proof.
  revert bs. induction s as [|c s IH]; intros bs.
  - now intros [= <-].
  - simpl. destruct (utf8_encode_cp c) as [b1|] eqn:Ec; [|discriminate].
    destruct (utf8_encode s) as [b2|]; [|discriminate].
    intros [= <-]. rewrite (utf8_decode_encode_cp _ _ _ Ec).
    now rewrite (IH _ eq_refl).
Qed.

(** ** Programs that only read *)

Lemma readonly_bind p f :
  readonly p -> (forall v, readonly (f v)) -> readonly (bind p f).
Proof.
  induction 1; intros Hf; simpl; auto; constructor; auto.
Qed.

Lemma readonly_call_method recv m args kw :
  m <> Sel.__init__ -> readonly (call_method recv m args kw).
Proof.
  intros Hm. unfold call_method.
  assert (readonly (Invoke (CMethod recv m args kw) Ret)) as Hinv
    by (constructor; constructor).
  assert (forall l, readonly (Send l m args kw Ret)) as Hsend
    by (constructor; [assumption|constructor]).
  assert (forall p, codec_call recv m args kw = Some p -> readonly p) as Hc.
  { unfold codec_call. intros p Hp.
    repeat match type of Hp with
           | match ?x with _ => _ end = _ => destruct x; try discriminate
           | (if ?x then _ else _) = _ => destruct x; try discriminate
           end;
    injection Hp as <-;
    match goal with
    | |- readonly (match ?x with _ => _ end) => destruct x
    end; constructor. }
  destruct recv; auto;
    (destruct (builtin_has _ m); [|constructor];
     destruct (codec_call _ m args kw) eqn:E; [now apply Hc|exact Hinv]).
Qed.

Lemma readonly_getitem c key : readonly (py_getitem c key).
Proof.
  unfold py_getitem.
  destruct c, key; try (constructor; constructor); try constructor.
  destruct (dict_get _ _); constructor.
Qed.

Lemma readonly_fstring pre v post : readonly (fstring pre v post).
Proof.
  unfold fstring. apply readonly_bind.
  - unfold py_format. destruct v; constructor; intros []; constructor.
  - intros []; constructor.
Qed.

Lemma readonly_list v : readonly (py_list v).
Proof. destruct v; repeat constructor. Qed.

Lemma readonly_binop_other op a b : readonly (binop_other op a b).
Proof. unfold binop_other. destruct (_ || _); repeat constructor. Qed.

Lemma readonly_float_op f x y : readonly (float_op f x y).
Proof.
  unfold float_op. destruct (to_float x), (to_float y); constructor.
Qed.

Lemma readonly_sub a b : readonly (py_sub a b).
Proof.
  unfold py_sub.
  destruct (as_num a) as [[]|], (as_num b) as [[]|];
    auto using readonly_binop_other, readonly_float_op, readonly.
Qed.

Lemma readonly_mul a b : readonly (py_mul a b).
Proof.
  unfold py_mul.
  destruct (as_num a) as [[]|], (as_num b) as [[]|];
    auto using readonly_binop_other, readonly_float_op, readonly;
    destruct (repeat_val _ _); auto using readonly_binop_other, readonly.
Qed.

Lemma readonly_truediv a b : readonly (py_truediv a b).
Proof.
  unfold py_truediv.
  destruct (as_num a) as [[]|], (as_num b) as [[]|];
    auto using readonly_binop_other;
    repeat match goal with
           | |- readonly (match ?x with _ => _ end) => destruct x
           | |- readonly (if ?x then _ else _) => destruct x
           end; constructor.
Qed.

Create HintDb readonly.
#[local] Hint Resolve readonly_call_method readonly_getitem readonly_fstring
  readonly_list readonly_sub readonly_mul readonly_truediv : readonly.
#[local] Hint Constructors readonly : readonly.

Ltac readonly_body :=
  repeat match goal with
         | |- readonly (match ?x with _ => _ end) => destruct x
         | |- readonly (bind _ _) => apply readonly_bind
         | |- forall _, _ => intro
         | |- _ <> _ => discriminate
         | |- readonly _ => solve [auto with readonly]
         end.

(** Every method of the classes of the two files, the constructors apart,
    only reads. *)
Lemma readonly_methods c m f self args kw :
  repo_class c = true -> m <> Sel.__init__ ->
  resolve c m = Some f -> readonly (f self args kw).
Proof.
  intros Hc Hm Hf.
  destruct c; try discriminate; destruct m; try contradiction;
    simpl in Hf; try discriminate; injection Hf as <-;
    cbv beta delta [CelsiusTemperatureSensor.get_temperature
                    FahrenheitTemperatureSensor.get_temperature
                    TemperatureSensorAdapter.get_temperature
                    DataStoreAdapter.read_data DataStoreAdapter.write_data
                    MySQLAdapter.read_data MySQLAdapter.write_data
                    MongoDBAdapter.read_data MongoDBAdapter.write_data
                    S3Adapter.read_data S3Adapter.write_data];
    readonly_body.
Qed.

Lemma orderly_nil r : orderly r [].
Proof. left. constructor. Qed.

Lemma orderly_inl v new : orderly (inl v) new -> Forall answered new.
Proof. intros [H|(pre & c & e & _ & _ & H)]; [exact H|discriminate]. Qed.

Lemma orderly_app r new1 new2 :
  Forall answered new1 -> orderly r new2 -> orderly r (new1 ++ new2).
Proof.
  intros H1 [H2|(pre & c & e & -> & Hpre & ->)].
  - left. now apply Forall_app.
  - right. exists (new1 ++ pre), c, e.
    rewrite app_assoc. repeat split. now apply Forall_app.
Qed.

Lemma orderly_propagated r new : orderly r new -> propagated r new.
Proof.
  intros Ho pre c e post ->.
  destruct Ho as [Ha|(pre' & c' & e' & Heq & Hpre & ->)].
  - apply Forall_app in Ha as [_ Ha]. inversion Ha as [|? ? Hbad _].
    contradiction.
  - destruct post as [|x post _] using rev_ind.
    + apply app_inj_tail in Heq as [_ [= <- <-]]. now split.
    + change (pre ++ (c, inr e) :: post ++ [x])
        with (pre ++ ((c, inr e) :: post) ++ [x]) in Heq.
      rewrite app_assoc in Heq. apply app_inj_tail in Heq as [<- _].
      apply Forall_app in Hpre as [_ Hpre].
      inversion Hpre as [|? ? Hbad _]. contradiction.
Qed.

Section Readonly.
Context {St : Type} (h : Handler St).

(** A program that only reads, run on a heap of instances of the classes
    of the two files, leaves the heap as it was, and its requests to the
    outside are orderly. *)
Lemma run_readonly d :
  forall p (w : World St) r w',
    readonly p -> repo_heap w -> run h d p w = (r, w') ->
    heap w' = heap w /\ exists new, trace w' = trace w ++ new /\ orderly r new.
Proof.
  induction d as [d IHd] using lt_wf_ind.
  intros p w r w' Hp. revert w r w'.
  induction Hp as [v|e|o n k Hk IH|c k Hk IH|o m a kw k Hm Hk IH];
    intros w r w' Hw Hrun.
  - rewrite run_Ret in Hrun. injection Hrun as <- <-.
    split; [reflexivity|]. exists []. rewrite app_nil_r.
    auto using orderly_nil.
  - rewrite run_Raise in Hrun. injection Hrun as <- <-.
    split; [reflexivity|]. exists []. rewrite app_nil_r.
    auto using orderly_nil.
  - rewrite run_GetAttr in Hrun.
    destruct (heap w !! o) as [ob|];
      [destruct (attrs ob !! n) as [v|]; [now apply (IH v)|]|];
      injection Hrun as <- <-; (split; [reflexivity|]); exists [];
      rewrite app_nil_r; auto using orderly_nil.
  - rewrite run_Invoke in Hrun.
    destruct (h c (outside w)) as [[v|e] s].
    + apply IH in Hrun as (Hheap & new & Htr & Ho); [|exact Hw].
      split; [exact Hheap|]. exists ((c, inl v) :: new). simpl in Htr.
      rewrite Htr, <- app_assoc. split; [reflexivity|].
      apply (orderly_app _ [(c, inl v)]); [|exact Ho].
      repeat constructor.
    + injection Hrun as <- <-. split; [reflexivity|].
      exists [(c, inr e)]. split; [reflexivity|].
      right. exists [], c, e. repeat split. constructor.
  - assert (forall e, r = inr e -> w' = w ->
              heap w' = heap w
              /\ exists new, trace w' = trace w ++ new /\ orderly r new)
      as Hstop.
    { intros e -> ->. split; [reflexivity|]. exists [].
      rewrite app_nil_r. auto using orderly_nil. }
    destruct d as [|d].
    + rewrite run_Send_0 in Hrun.
      destruct (heap w !! o) as [ob|];
        [destruct (resolve (class_of ob) m)|];
        injection Hrun as <- <-; eapply Hstop; reflexivity.
    + rewrite run_Send in Hrun.
      destruct (heap w !! o) as [ob|] eqn:Hob;
        [|injection Hrun as <- <-; eapply Hstop; reflexivity].
      destruct (resolve (class_of ob) m) as [body|] eqn:Hres;
        [|injection Hrun as <- <-; eapply Hstop; reflexivity].
      destruct (run h d (body o a kw) w) as [r1 w1] eqn:Hbody.
      apply IHd in Hbody as (Hheap1 & new1 & Htr1 & Ho1);
        [|lia|eapply readonly_methods; eauto; exact (Hw o ob Hob)|exact Hw].
      destruct r1 as [v|e].
      * apply IH in Hrun as (Hheap & new & Htr & Ho).
        -- split; [congruence|]. exists (new1 ++ new).
           rewrite Htr, Htr1, <- app_assoc. split; [reflexivity|].
           apply orderly_app; [|exact Ho]. eapply orderly_inl, Ho1.
        -- unfold repo_heap. now rewrite Hheap1.
      * injection Hrun as <- <-. split; [exact Hheap1|].
        exists new1. auto.
Qed.

End Readonly.

(** ** Failures and the adapters' own state *)

Lemma demo_world_repo_heap : repo_heap demo_world.
Proof.
  apply map_Forall_to_list. vm_compute. repeat constructor.
Qed.

(** C8. For each of the three adapters and both operations, whatever the
    store client answers: a request that the store client fails is the last
    request of the operation (nothing is retried and nothing follows it),
    and the exception of the operation is that very exception. *)
Theorem store_failures_propagate {St} (h : Handler St) d (w : World St)
  l ob m args kw r w' :
  repo_heap w ->
  heap w !! l = Some ob ->
  concrete_adapter (class_of ob) = true ->
  data_operation m = true ->
  call h d (VObj l) m args kw w = (r, w') ->
  exists new, trace w' = trace w ++ new /\ propagated r new.
Proof.
  intros Hw _ _ Hm Hcall. unfold call, call_method in Hcall.
  apply run_readonly in Hcall as (_ & new & Htr & Ho); [|constructor|exact Hw].
  - exists new. auto using orderly_propagated.
  - now intros ->.
  - constructor.
Qed.

Lemma store_failures_propagate_witness :
  exists new,
    trace (snd (call store_clients 1 (VObj 0) Sel.read_data
                  [VStr (lit "nosuchtable")] [] demo_world))
    = trace demo_world ++ new
    /\ propagated
         (inr (LibraryError "mysql.connector.errors.ProgrammingError")) new.
Proof.
  eapply (store_failures_propagate store_clients 1 demo_world 0%N
            _ Sel.read_data [VStr (lit "nosuchtable")] []).
  - exact demo_world_repo_heap.
  - vm_compute. reflexivity.
  - reflexivity.
  - reflexivity.
  - vm_compute. reflexivity.
Defined.

(** C9. A [read_data], [write_data] or [get_temperature] call on an adapter
    leaves every object as it was, whatever the outside answers: the
    attributes the constructor set ([connection] and [cursor], [client] and
    [db], [s3] and [bucket], [fahrenheit_sensor]) are never assigned
    again. *)
Theorem operations_keep_adapter_state {St} (h : Handler St) d (w : World St)
  l ob m args kw :
  repo_heap w ->
  heap w !! l = Some ob ->
  adapter_class (class_of ob) = true ->
  adapter_operation m = true ->
  heap (snd (call h d (VObj l) m args kw w)) = heap w
  /\ heap (snd (call h d (VObj l) m args kw w)) !! l = Some ob.
Proof.
  intros Hw Hl _ Hm.
  destruct (call h d (VObj l) m args kw w) as [r w'] eqn:Hcall.
  unfold call, call_method in Hcall.
  apply run_readonly in Hcall as (Hheap & _); [|constructor|exact Hw].
  - simpl. now rewrite Hheap.
  - now intros ->.
  - constructor.
Qed.

Lemma operations_keep_adapter_state_witness :
  heap (snd (call store_clients 1 (VObj 0) Sel.write_data
               [VStr (lit "mytable");
                VTuple [VInt 1; VStr (lit "a"); VStr (lit "b")]] []
               demo_world))
  = heap demo_world
  /\ heap (snd (call store_clients 1 (VObj 0) Sel.write_data
                  [VStr (lit "mytable");
                   VTuple [VInt 1; VStr (lit "a"); VStr (lit "b")]] []
                  demo_world)) !! 0%N
     = Some (mkObj Class.MySQLAdapter
               (<["cursor" := VExt 1]> {["connection" := VExt 0]})).
Proof.
  apply (operations_keep_adapter_state store_clients 1 demo_world).
  - exact demo_world_repo_heap.
  - vm_compute. reflexivity.
  - reflexivity.
  - reflexivity.
Defined.

(** ** The relational adapter *)

Lemma placeholders_app_space t r :
  placeholders (t ++ 32%N :: r) = (placeholders t + placeholders (32%N :: r))%nat.
Proof.
  assert (forall n t, length t <= n ->
            placeholders (t ++ 32%N :: r)
            = (placeholders t + placeholders (32%N :: r))%nat)%nat as H.
  { intros n. induction n as [|n IH]; intros [|a [|b u]] Hlen;
      try reflexivity; simpl in Hlen; try lia.
    - simpl. now destruct (a =? 37)%N.
    - change ((a :: b :: u) ++ 32%N :: r) with (a :: b :: (u ++ 32%N :: r)).
      cbn [placeholders]. destruct (a =? 37)%N.
      + destruct (b =? 115)%N.
        * rewrite IH by lia. reflexivity.
        * apply (IH (b :: u)). simpl. lia.
      + apply (IH (b :: u)). simpl. lia. }
  apply (H (length t)). lia.
Qed.

(** The statement [write_data] builds expects three values and one more
    for every marker in the table name. *)
Lemma insert_placeholders table_name :
  placeholders (lit "INSERT INTO " ++ table_name ++ lit " VALUES (%s, %s, %s)")
  = (placeholders table_name + 3)%nat.
Proof.
  change (lit " VALUES (%s, %s, %s)")
    with (32%N :: lit "VALUES (%s, %s, %s)").
  change (placeholders (lit "INSERT INTO " ++ ?x)) with (placeholders x).
  rewrite placeholders_app_space. reflexivity.
Qed.

Section Relational.
Context {St : Type} (h : Handler St).

Lemma mysql_read_data_runs d (w : World St) l fields cur table_name :
  heap w !! l = Some (mkObj Class.MySQLAdapter fields) ->
  fields !! "cursor" = Some (VExt cur) ->
  call h (S d) (VObj l) Sel.read_data [VStr table_name] [] w
  = run h d
      (Invoke (CMethod (VExt cur) Sel.execute
                 [VStr (lit "SELECT * FROM " ++ table_name)] [])
         (fun _ => Invoke (CMethod (VExt cur) Sel.fetchall [] []) Ret)) w.
Proof.
  intros Hl Hc. unfold call, call_method.
  rewrite run_Send, Hl. simpl resolve.
  unfold MySQLAdapter.read_data. simpl bind_params. cbv iota.
  rewrite run_bind, run_GetAttr, Hl. simpl attrs. rewrite Hc, run_Ret.
  unfold fstring, py_format. rewrite run_bind, run_bind, !run_Ret.
  change (lit "") with (@nil N). rewrite app_nil_r.
  rewrite run_bind. unfold call_method at 1. rewrite !run_Invoke.
  destruct (h _ (outside w)) as [[v|e] s1]; [|reflexivity].
  rewrite run_Ret, run_bind, run_GetAttr. simpl heap. rewrite Hl.
  simpl attrs. rewrite Hc, run_Ret. unfold call_method.
  rewrite !run_Invoke. cbn [heap outside trace].
  destruct (h _ s1) as [[rows|e] s2]; [|reflexivity].
  rewrite !run_Ret. reflexivity.
Qed.

Lemma mysql_write_data_runs d (w : World St) l fields cur conn table_name data :
  heap w !! l = Some (mkObj Class.MySQLAdapter fields) ->
  fields !! "cursor" = Some (VExt cur) ->
  fields !! "connection" = Some (VExt conn) ->
  call h (S d) (VObj l) Sel.write_data [VStr table_name; data] [] w
  = run h d
      (Invoke (CMethod (VExt cur) Sel.execute
                 [VStr (lit "INSERT INTO " ++ table_name
                        ++ lit " VALUES (%s, %s, %s)"); data] [])
         (fun _ => Invoke (CMethod (VExt conn) Sel.commit [] [])
                     (fun _ => Ret VNone))) w.
Proof.
  intros Hl Hc Hn. unfold call, call_method.
  rewrite run_Send, Hl. simpl resolve.
  unfold MySQLAdapter.write_data. simpl bind_params. cbv iota.
  rewrite run_bind, run_GetAttr, Hl. simpl attrs. rewrite Hc, run_Ret.
  unfold fstring, py_format. rewrite run_bind, run_bind, !run_Ret.
  rewrite run_bind. unfold call_method at 1. rewrite !run_Invoke.
  destruct (h _ (outside w)) as [[v|e] s1]; [|reflexivity].
  rewrite run_Ret, run_bind, run_GetAttr. simpl heap. rewrite Hl.
  simpl attrs. rewrite Hn, run_Ret, run_bind. unfold call_method.
  rewrite !run_Invoke. cbn [heap outside trace].
  destruct (h _ s1) as [[r2|e] s2]; [|reflexivity].
  rewrite !run_Ret. reflexivity.
Qed.

End Relational.

(** C6. For a string [table_name], [MySQLAdapter.read_data] asks the cursor
    to execute the text ["SELECT * FROM "] followed by [table_name] as it
    is, with no parameters, and when the store client serves both requests
    it returns what [fetchall] answered; these two requests are all it
    makes. *)
Theorem mysql_read_data_statement {St} (h : Handler St) d (w : World St)
  l fields cur table_name r1 s1 rows s2 :
  heap w !! l = Some (mkObj Class.MySQLAdapter fields) ->
  fields !! "cursor" = Some (VExt cur) ->
  let execute :=
    CMethod (VExt cur) Sel.execute
      [VStr (lit "SELECT * FROM " ++ table_name)] [] in
  let fetchall := CMethod (VExt cur) Sel.fetchall [] [] in
  h execute (outside w) = (inl r1, s1) ->
  h fetchall s1 = (inl rows, s2) ->
  call h (S d) (VObj l) Sel.read_data [VStr table_name] [] w
  = (inl rows,
     mkWorld (heap w) s2
       (trace w ++ [(execute, inl r1); (fetchall, inl rows)])).
Proof.
  intros Hl Hc execute fetchall He Hf.
  rewrite (mysql_read_data_runs h d w l fields cur table_name Hl Hc).
  fold execute fetchall. rewrite run_Invoke, He. cbn [heap outside trace].
  rewrite run_Invoke. cbn [heap outside trace]. rewrite Hf, run_Ret.
  now rewrite <- app_assoc.
Qed.

Lemma mysql_read_data_statement_witness :
  exists w',
    call store_clients 1 (VObj 0) Sel.read_data [VStr (lit "mytable")] []
      demo_world
    = (inl (VList []), w')
    /\ statements (trace w') = [(lit "SELECT * FROM mytable", None)].
Proof.
  eexists. split.
  - eapply (mysql_read_data_statement store_clients 0 demo_world 0%N
              (<["cursor" := VExt 1]> {["connection" := VExt 0]}) 1%N
              (lit "mytable")).
    + vm_compute. reflexivity.
    + reflexivity.
    + vm_compute. reflexivity.
    + vm_compute. reflexivity.
  - vm_compute. reflexivity.
Defined.

(** C5, as the code has it. For a string [table_name] and any [data],
    [MySQLAdapter.write_data] asks the cursor to execute the text
    ["INSERT INTO "], [table_name] as it is, [" VALUES (%s, %s, %s)"] with
    [data] as its parameters: a statement with three markers and one more
    for each marker inside [table_name], so exactly three when the table
    name has none. When the store client serves it, the session is
    committed next and nothing else is requested; when it fails, that
    failure is the result and no commit (and nothing else) follows. *)
Theorem mysql_write_data_statement {St} (h : Handler St) d (w : World St)
  l fields cur conn table_name data :
  heap w !! l = Some (mkObj Class.MySQLAdapter fields) ->
  fields !! "cursor" = Some (VExt cur) ->
  fields !! "connection" = Some (VExt conn) ->
  let operation :=
    lit "INSERT INTO " ++ table_name ++ lit " VALUES (%s, %s, %s)" in
  let execute := CMethod (VExt cur) Sel.execute [VStr operation; data] [] in
  let commit := CMethod (VExt conn) Sel.commit [] [] in
  let write_data :=
    call h (S d) (VObj l) Sel.write_data [VStr table_name; data] [] w in
  placeholders operation = (placeholders table_name + 3)%nat
  /\ (placeholders table_name = 0%nat -> placeholders operation = 3%nat)
  /\ (forall r1 s1 r2 s2,
        h execute (outside w) = (inl r1, s1) ->
        h commit s1 = (inl r2, s2) ->
        write_data
        = (inl VNone,
           mkWorld (heap w) s2
             (trace w ++ [(execute, inl r1); (commit, inl r2)])))
  /\ (forall r1 s1 e s2,
        h execute (outside w) = (inl r1, s1) ->
        h commit s1 = (inr e, s2) ->
        write_data
        = (inr e,
           mkWorld (heap w) s2
             (trace w ++ [(execute, inl r1); (commit, inr e)])))
  /\ (forall e s1,
        h execute (outside w) = (inr e, s1) ->
        write_data
        = (inr e, mkWorld (heap w) s1 (trace w ++ [(execute, inr e)]))).
Proof.
  intros Hl Hc Hn operation execute commit write_data.
  assert (placeholders operation = (placeholders table_name + 3)%nat) as Hp
    by apply insert_placeholders.
  subst write_data.
  rewrite (mysql_write_data_runs h d w l fields cur conn table_name data
             Hl Hc Hn).
  fold operation. fold execute. fold commit.
  split; [exact Hp|]. split; [intros H0; now rewrite Hp, H0|].
  repeat split.
  - intros r1 s1 r2 s2 He Hk.
    rewrite run_Invoke, He. cbn [heap outside trace].
    rewrite run_Invoke. cbn [heap outside trace]. rewrite Hk, run_Ret.
    now rewrite <- app_assoc.
  - intros r1 s1 e s2 He Hk.
    rewrite run_Invoke, He. cbn [heap outside trace].
    rewrite run_Invoke. cbn [heap outside trace]. rewrite Hk.
    now rewrite <- app_assoc.
  - intros e s1 He. now rewrite run_Invoke, He.
Qed.

Lemma mysql_write_data_statement_witness :
  exists w',
    call store_clients 1 (VObj 0) Sel.write_data
      [VStr (lit "mytable"); VTuple [VInt 1; VStr (lit "a"); VStr (lit "b")]]
      [] demo_world
    = (inl VNone, w')
    /\ map (fun st => placeholders (fst st)) (statements (trace w'))
       = [3%nat].
Proof.
  pose proof (mysql_write_data_statement store_clients 0 demo_world 0%N
                (<["cursor" := VExt 1]> {["connection" := VExt 0]})
                1%N 0%N (lit "mytable")
                (VTuple [VInt 1; VStr (lit "a"); VStr (lit "b")])) as H.
  destruct H as (_ & _ & H & _).
  - vm_compute. reflexivity.
  - reflexivity.
  - reflexivity.
  - eexists. split.
    + eapply H.
      * vm_compute. reflexivity.
      * vm_compute. reflexivity.
    + vm_compute. reflexivity.
Defined.

(** C5, as it is stated, fails: for the table name [t%s] the one statement
    [write_data] has executed carries four markers, not three. *)
Lemma insert_statement_extra_marker :
  statements
    (trace (snd (call store_clients 1 (VObj 0) Sel.write_data
                   [VStr (lit "t%s");
                    VTuple [VInt 1; VStr (lit "a"); VStr (lit "b")]] []
                   demo_world)))
  = [(lit "INSERT INTO t%s VALUES (%s, %s, %s)",
      Some (VTuple [VInt 1; VStr (lit "a"); VStr (lit "b")]))]
  /\ placeholders (lit "INSERT INTO t%s VALUES (%s, %s, %s)") = 4%nat
  /\ placeholders (lit "INSERT INTO t%s VALUES (%s, %s, %s)") <> 3%nat.
Proof.
  split; [vm_compute; reflexivity|]. split; [reflexivity|discriminate].
Qed.

(** ** The adapters on the store clients *)

Lemma call_resolved {St} (h : Handler St) d (w : World St) l ob m f args kw :
  heap w !! l = Some ob ->
  resolve (class_of ob) m = Some f ->
  call h (S d) (VObj l) m args kw w = run h d (f l args kw) w.
Proof.
  intros Hl Hf. unfold call, call_method. rewrite run_Send, Hl, Hf.
  destruct (run h d (f l args kw) w) as [[v|e] w']; [apply run_Ret|reflexivity].
Qed.

Lemma fresh_handle st : objects st !! fresh (dom (objects st)) = None.
Proof. apply not_elem_of_dom, is_fresh. Qed.

Lemma lookup_after_alloc st x hd y :
  objects st !! hd = Some y ->
  <[fresh (dom (objects st)) := x]> (objects st) !! hd = Some y.
Proof.
  intros Hy. rewrite lookup_insert_ne; [exact Hy|].
  intros <-. now rewrite fresh_handle in Hy.
Qed.

Lemma ask_Object st hb b k :
  objects st !! hb = Some (XBucket b) ->
  store_clients (CMethod (VExt hb) Sel.Object [VStr k] []) st
  = alloc (XObject b k) st.
Proof.
  intros Hb. unfold store_clients, relational_client, document_client,
    object_client. now rewrite Hb.
Qed.

Lemma ask_put st ho b k content objs :
  objects st !! ho = Some (XObject b k) ->
  buckets st !! b = Some objs ->
  store_clients (CMethod (VExt ho) Sel.put [] [(lit "Body", VBytes content)]) st
  = (inl (VDict []),
     set_buckets (<[b := <[k := content]> objs]> (buckets st)) st).
Proof.
  intros Ho Hb. unfold store_clients, relational_client, document_client,
    object_client. rewrite Ho, Hb.
  now destruct (decide (lit "Body" = lit "Body")).
Qed.

Lemma ask_get st ho b k content objs :
  objects st !! ho = Some (XObject b k) ->
  buckets st !! b = Some objs ->
  objs !! k = Some content ->
  store_clients (CMethod (VExt ho) Sel.get [] []) st
  = (inl (VDict [(lit "Body", VExt (fresh (dom (objects st))))]),
     set_objects (<[fresh (dom (objects st)) := XBody content]> (objects st))
       st).
Proof.
  intros Ho Hb Hk. unfold store_clients, relational_client, document_client,
    object_client. now rewrite Ho, Hb, Hk.
Qed.

Lemma ask_read st hs content :
  objects st !! hs = Some (XBody content) ->
  store_clients (CMethod (VExt hs) Sel.read [] []) st
  = (inl (VBytes content),
     set_objects (<[hs := XBody []]> (objects st)) st).
Proof.
  intros Hs. unfold store_clients, relational_client, document_client,
    object_client. now rewrite Hs.
Qed.


Lemma extends_trans st1 st2 st3 :
  extends st1 st2 -> extends st2 st3 -> extends st1 st3.
Proof.
  intros [A1 B1] [A2 B2]. split.
  - eauto.
  - intros hd conn r H. apply B1 in H as [r' H]. eauto.
Qed.

(** The objects of a store are the only thing [extends] looks at. *)
Lemma extends_objects st st' :
  objects st' = objects st -> extends st st'.
Proof. intros E. unfold extends. rewrite E. eauto. Qed.

Lemma extends_alloc st x :
  extends st (set_objects (<[fresh (dom (objects st)) := x]> (objects st)) st).
Proof.
  split; cbn [objects set_objects].
  - intros hd y _ Hy. now apply lookup_after_alloc.
  - intros hd conn r Hy. exists r. now apply lookup_after_alloc.
Qed.

(** A cursor or a stream consumed in place. *)
Lemma extends_update st hd x y :
  objects st !! hd = Some x -> stable x = false ->
  (forall conn r, x = XCursor conn r -> exists r', y = XCursor conn r') ->
  extends st (set_objects (<[hd := y]> (objects st)) st).
Proof.
  intros Hx Hs Hc. split; cbn [objects set_objects].
  - intros hd' z Hz Hd'. rewrite lookup_insert_ne; [exact Hd'|].
    intros <-. congruence.
  - intros hd' conn r Hd'. destruct (decide (hd = hd')) as [<-|Hne].
    + rewrite lookup_insert_eq. rewrite Hx in Hd'. injection Hd' as ->.
      destruct (Hc conn r eq_refl) as [r' ->]. eauto.
    + rewrite lookup_insert_ne by exact Hne. eauto.
Qed.

Lemma s3_adapter_extends (w w' : World Store) l b :
  heap w' = heap w -> extends (outside w) (outside w') ->
  s3_adapter w l b -> s3_adapter w' l b.
Proof.
  intros Hh [He _] (fields & hb & Hl & Hf & Hb).
  exists fields, hb. rewrite Hh. auto.
Qed.

Lemma mongo_adapter_extends (w w' : World Store) l db :
  heap w' = heap w -> extends (outside w) (outside w') ->
  mongo_adapter w l db -> mongo_adapter w' l db.
Proof.
  intros Hh [He _] (fields & hd & Hl & Hf & Hd).
  exists fields, hd. rewrite Hh. auto.
Qed.

Lemma mysql_adapter_extends (w w' : World Store) l :
  heap w' = heap w -> extends (outside w) (outside w') ->
  mysql_adapter w l -> mysql_adapter w' l.
Proof.
  intros Hh [He Hc] (fields & hc & hn & r & Hl & Hfc & Hfn & Hcur & Hconn).
  destruct (Hc _ _ _ Hcur) as [r' Hcur'].
  exists fields, hc, hn, r'. rewrite Hh. auto 10.
Qed.

Lemma s3_write_stores d (w : World Store) l b objs k s content :
  s3_adapter w l b ->
  buckets (outside w) !! b = Some objs ->
  utf8_encode s = Some content ->
  exists w1,
    call store_clients (S d) (VObj l) Sel.write_data [VStr k; VStr s] [] w
    = (inl VNone, w1)
    /\ heap w1 = heap w
    /\ extends (outside w) (outside w1)
    /\ contents (outside w1)
       = (tables (outside w), committed (outside w), collections (outside w),
          <[b := <[k := content]> objs]> (buckets (outside w))).
Proof.
  intros (fields & hb & Hl & Hf & Hb) Hobjs Henc.
  rewrite (call_resolved _ d w l _ Sel.write_data S3Adapter.write_data
             _ _ Hl eq_refl).
  unfold S3Adapter.write_data. simpl bind_params. cbv iota.
  rewrite run_bind, run_bind, run_GetAttr, Hl. cbn [attrs].
  rewrite Hf, run_Ret. unfold call_method at 1.
  rewrite run_Invoke, (ask_Object _ _ _ _ Hb). unfold alloc.
  cbn [heap outside trace]. rewrite run_Ret, run_bind.
  unfold call_method at 1, builtin_has, codec_call.
  destruct (decide (utf_8 = utf_8)) as [_|]; [|contradiction].
  rewrite Henc, run_Ret, run_bind. unfold call_method.
  rewrite run_Invoke. cbn [heap outside trace].
  erewrite ask_put;
    [|cbn [objects set_objects]; apply lookup_insert_eq|exact Hobjs].
  rewrite !run_Ret. eexists. split; [reflexivity|].
  cbn [heap outside]. split; [reflexivity|]. split; [|reflexivity].
  eapply extends_trans; [apply extends_alloc|].
  now apply extends_objects.
Qed.

Lemma s3_read_returns d (w : World Store) l b objs k s content :
  s3_adapter w l b ->
  buckets (outside w) !! b = Some objs ->
  objs !! k = Some content ->
  utf8_decode content = Some s ->
  exists w2,
    call store_clients (S d) (VObj l) Sel.read_data [VStr k] [] w
    = (inl (VStr s), w2)
    /\ heap w2 = heap w
    /\ extends (outside w) (outside w2)
    /\ contents (outside w2) = contents (outside w).
Proof.
  intros (fields & hb & Hl & Hf & Hb) Hobjs Hk Hdec.
  rewrite (call_resolved _ d w l _ Sel.read_data S3Adapter.read_data
             _ _ Hl eq_refl).
  unfold S3Adapter.read_data. simpl bind_params. cbv iota.
  rewrite run_bind, run_bind, run_GetAttr, Hl. cbn [attrs].
  rewrite Hf, run_Ret. unfold call_method at 1.
  rewrite run_Invoke, (ask_Object _ _ _ _ Hb). unfold alloc.
  cbn [heap outside trace]. rewrite run_Ret, run_bind.
  unfold call_method at 1. rewrite run_Invoke. cbn [heap outside trace].
  erewrite ask_get;
    [|cbn [objects set_objects]; apply lookup_insert_eq|exact Hobjs|exact Hk].
  cbn [heap outside trace]. rewrite run_Ret, run_bind.
  unfold py_getitem. cbn [dict_get].
  destruct (decide (lit "Body" = lit "Body")) as [_|]; [|contradiction].
  rewrite run_Ret, run_bind. unfold call_method at 1.
  rewrite run_Invoke. cbn [heap outside trace].
  erewrite ask_read; [|cbn [objects set_objects]; apply lookup_insert_eq].
  cbn [heap outside trace]. rewrite run_Ret.
  unfold call_method, builtin_has, codec_call.
  destruct (decide (utf_8 = utf_8)) as [_|]; [|contradiction].
  rewrite Hdec, run_Ret. eexists. split; [reflexivity|].
  cbn [heap outside]. split; [reflexivity|]. split; [|reflexivity].
  eapply extends_trans; [apply extends_alloc|].
  eapply extends_trans; [apply extends_alloc|].
  eapply extends_update;
    [cbn [objects set_objects]; apply lookup_insert_eq|reflexivity|].
  intros conn r [=].
Qed.



Lemma ask_collection st hd db name :
  objects st !! hd = Some (XDatabase db) ->
  name <> [] ->
  store_clients (CGetItem (VExt hd) (VStr name)) st
  = alloc (XCollection db name) st.
Proof.
  intros Hd Hn. unfold store_clients, relational_client, document_client.
  rewrite Hd. now destruct name.
Qed.

Lemma ask_insert_one st hc db name doc :
  objects st !! hc = Some (XCollection db name) ->
  store_clients (CMethod (VExt hc) Sel.insert_one [VDict doc] []) st
  = alloc XInsertOneResult
      (set_collections
         (<[(db, name) := documents st db name ++ [VDict doc]]>
            (collections st)) st).
Proof.
  intros Hc. unfold store_clients, relational_client, document_client.
  now rewrite Hc.
Qed.

Lemma ask_find st hc db name filter :
  objects st !! hc = Some (XCollection db name) ->
  store_clients (CMethod (VExt hc) Sel.find [VDict filter] []) st
  = alloc (XFound (List.filter (matches filter) (documents st db name))) st.
Proof.
  intros Hc. unfold store_clients, relational_client, document_client.
  now rewrite Hc.
Qed.

Lemma ask_list st hf docs :
  objects st !! hf = Some (XFound docs) ->
  store_clients (CGlobal "list" [VExt hf] []) st
  = (inl (VList docs), set_objects (<[hf := XFound []]> (objects st)) st).
Proof.
  intros Hf. unfold store_clients, relational_client, document_client.
  now rewrite Hf.
Qed.

(** The empty filter selects every document. *)
Lemma filter_matches_nil docs : List.filter (matches []) docs = docs.
Proof.
  induction docs as [|d docs IH]; [reflexivity|].
  simpl. now rewrite IH.
Qed.

Lemma mongo_write_stores d (w : World Store) l db name doc :
  mongo_adapter w l db ->
  name <> [] ->
  exists w1,
    call store_clients (S d) (VObj l) Sel.write_data
      [VStr name; VDict doc] [] w
    = (inl VNone, w1)
    /\ heap w1 = heap w
    /\ extends (outside w) (outside w1)
    /\ contents (outside w1)
       = (tables (outside w), committed (outside w),
          <[(db, name) := documents (outside w) db name ++ [VDict doc]]>
            (collections (outside w)),
          buckets (outside w)).
Proof.
  intros (fields & hd & Hl & Hf & Hd) Hn.
  rewrite (call_resolved _ d w l _ Sel.write_data MongoDBAdapter.write_data
             _ _ Hl eq_refl).
  unfold MongoDBAdapter.write_data. simpl bind_params. cbv iota.
  rewrite run_bind, run_bind, run_GetAttr, Hl. cbn [attrs].
  rewrite Hf, run_Ret. unfold py_getitem.
  rewrite run_Invoke, (ask_collection _ _ _ _ Hd Hn). unfold alloc at 1.
  cbn [heap outside trace]. rewrite run_Ret, run_bind.
  unfold call_method. rewrite run_Invoke. cbn [heap outside trace].
  erewrite ask_insert_one by (cbn [objects set_objects]; apply lookup_insert_eq).
  unfold alloc. rewrite !run_Ret. eexists. split; [reflexivity|].
  cbn [heap outside]. split; [reflexivity|]. split; [|reflexivity].
  eapply extends_trans; [apply extends_alloc|].
  eapply extends_trans; [|apply extends_alloc].
  now apply extends_objects.
Qed.

Lemma mongo_read_returns d (w : World Store) l db name :
  mongo_adapter w l db ->
  name <> [] ->
  exists w2 hc hf,
    call store_clients (S d) (VObj l) Sel.read_data [VStr name] [] w
    = (inl (VList (List.filter (matches []) (documents (outside w) db name))),
       w2)
    /\ heap w2 = heap w
    /\ extends (outside w) (outside w2)
    /\ contents (outside w2) = contents (outside w)
    /\ exists hd,
         trace w2
         = trace w
           ++ [(CGetItem (VExt hd) (VStr name), inl (VExt hc));
               (CMethod (VExt hc) Sel.find [VDict []] [], inl (VExt hf));
               (CGlobal "list" [VExt hf] [],
                inl (VList (List.filter (matches [])
                              (documents (outside w) db name))))].
Proof.
  intros (fields & hd & Hl & Hf & Hd) Hn.
  rewrite (call_resolved _ d w l _ Sel.read_data MongoDBAdapter.read_data
             _ _ Hl eq_refl).
  unfold MongoDBAdapter.read_data. simpl bind_params. cbv iota.
  rewrite run_bind, run_bind, run_GetAttr, Hl. cbn [attrs].
  rewrite Hf, run_Ret. unfold py_getitem.
  rewrite run_Invoke, (ask_collection _ _ _ _ Hd Hn). unfold alloc at 1.
  cbn [heap outside trace]. rewrite run_Ret, run_bind.
  unfold call_method. rewrite run_Invoke. cbn [heap outside trace].
  erewrite ask_find by (cbn [objects set_objects]; apply lookup_insert_eq).
  unfold alloc. cbn [heap outside trace]. rewrite run_Ret.
  unfold py_list. rewrite run_Invoke. cbn [heap outside trace].
  erewrite ask_list by (cbn [objects set_objects]; apply lookup_insert_eq).
  rewrite run_Ret. do 3 eexists. split; [reflexivity|].
  cbn [heap outside trace]. split; [reflexivity|].
  split; [|split; [reflexivity|]].
  - eapply extends_trans; [apply extends_alloc|].
    eapply extends_trans; [apply extends_alloc|].
    eapply extends_update;
      [cbn [objects set_objects]; apply lookup_insert_eq|reflexivity|].
    intros conn r [=].
  - exists hd. now rewrite <- !app_assoc.
Qed.

Lemma strip_prefix_app p s : strip_prefix p (p ++ s) = Some s.
Proof.
  induction p as [|a p IH]; [reflexivity|].
  simpl. now destruct (decide (a = a)).
Qed.

Lemma strip_suffix_app p s : strip_suffix p (s ++ p) = Some s.
Proof.
  unfold strip_suffix. rewrite rev_app_distr, strip_prefix_app.
  simpl. now rewrite rev_involutive.
Qed.

Lemma parse_select t :
  sql_identifier t = true ->
  parse_statement (lit "SELECT * FROM " ++ t) = Some (SelectAll t).
Proof.
  intros Ht. unfold parse_statement. now rewrite strip_prefix_app, Ht.
Qed.

Lemma parse_insert t :
  sql_identifier t = true ->
  parse_statement (lit "INSERT INTO " ++ t ++ lit " VALUES (%s, %s, %s)")
  = Some (Insert3 t).
Proof.
  intros Ht. unfold parse_statement.
  change (strip_prefix (lit "SELECT * FROM ") (lit "INSERT INTO " ++ ?x))
    with (@None pystr).
  now rewrite strip_prefix_app, strip_suffix_app, Ht.
Qed.

Lemma ask_select st hc conn r t rows :
  objects st !! hc = Some (XCursor conn r) ->
  sql_identifier t = true ->
  tables st !! t = Some rows ->
  store_clients
    (CMethod (VExt hc) Sel.execute [VStr (lit "SELECT * FROM " ++ t)] []) st
  = (inl VNone, set_objects (<[hc := XCursor conn (Some rows)]> (objects st)) st).
Proof.
  intros Hc Ht Hrows. unfold store_clients, relational_client.
  now rewrite Hc, (parse_select _ Ht), Hrows.
Qed.

Lemma ask_insert st hc conn r t rows params row :
  objects st !! hc = Some (XCursor conn r) ->
  sql_identifier t = true ->
  tables st !! t = Some rows ->
  sql_row params = Some row ->
  store_clients
    (CMethod (VExt hc) Sel.execute
       [VStr (lit "INSERT INTO " ++ t ++ lit " VALUES (%s, %s, %s)"); params]
       []) st
  = (inl VNone,
     set_tables (<[t := rows ++ [row]]> (tables st))
       (set_objects (<[hc := XCursor conn None]> (objects st)) st)).
Proof.
  intros Hc Ht Hrows Hrow. unfold store_clients, relational_client.
  now rewrite Hc, (parse_insert _ Ht), Hrow, Hrows.
Qed.

Lemma ask_fetchall st hc conn rows :
  objects st !! hc = Some (XCursor conn (Some rows)) ->
  store_clients (CMethod (VExt hc) Sel.fetchall [] []) st
  = (inl (VList rows),
     set_objects (<[hc := XCursor conn (Some [])]> (objects st)) st).
Proof.
  intros Hc. unfold store_clients, relational_client. now rewrite Hc.
Qed.

Lemma ask_commit st hn :
  objects st !! hn = Some XConnection ->
  store_clients (CMethod (VExt hn) Sel.commit [] []) st
  = (inl VNone, set_committed (tables st) st).
Proof.
  intros Hn. unfold store_clients, relational_client. now rewrite Hn.
Qed.

Lemma mysql_write_stores d (w : World Store) l t rows data row :
  mysql_adapter w l ->
  sql_identifier t = true ->
  tables (outside w) !! t = Some rows ->
  sql_row data = Some row ->
  exists w1,
    call store_clients (S d) (VObj l) Sel.write_data [VStr t; data] [] w
    = (inl VNone, w1)
    /\ heap w1 = heap w
    /\ extends (outside w) (outside w1)
    /\ contents (outside w1)
       = (<[t := rows ++ [row]]> (tables (outside w)),
          <[t := rows ++ [row]]> (tables (outside w)),
          collections (outside w), buckets (outside w)).
Proof.
  intros (fields & hc & hn & r & Hl & Hfc & Hfn & Hc & Hn) Ht Hrows Hrow.
  rewrite (mysql_write_data_runs store_clients d w l fields hc hn t data
             Hl Hfc Hfn).
  rewrite run_Invoke, (ask_insert _ _ _ _ _ _ _ _ Hc Ht Hrows Hrow).
  cbn [heap outside trace]. rewrite run_Invoke. cbn [heap outside trace].
  erewrite ask_commit.
  2:{ cbn [objects set_tables set_objects].
      rewrite lookup_insert_ne; [exact Hn|]. intros <-. congruence. }
  rewrite run_Ret. eexists. split; [reflexivity|].
  cbn [heap outside]. split; [reflexivity|]. split; [|reflexivity].
  eapply extends_trans; [|now apply extends_objects].
  eapply extends_trans; [|now apply extends_objects].
  eapply extends_update; [exact Hc|reflexivity|].
  intros conn r0 [= <- <-]. eauto.
Qed.

Lemma mysql_read_returns d (w : World Store) l t rows :
  mysql_adapter w l ->
  sql_identifier t = true ->
  tables (outside w) !! t = Some rows ->
  exists w2,
    call store_clients (S d) (VObj l) Sel.read_data [VStr t] [] w
    = (inl (VList rows), w2)
    /\ heap w2 = heap w
    /\ extends (outside w) (outside w2)
    /\ contents (outside w2) = contents (outside w).
Proof.
  intros (fields & hc & hn & r & Hl & Hfc & Hfn & Hc & Hn) Ht Hrows.
  rewrite (mysql_read_data_runs store_clients d w l fields hc t Hl Hfc).
  rewrite run_Invoke, (ask_select _ _ _ _ _ _ Hc Ht Hrows).
  cbn [heap outside trace]. rewrite run_Invoke. cbn [heap outside trace].
  erewrite ask_fetchall by (cbn [objects set_objects]; apply lookup_insert_eq).
  rewrite run_Ret. eexists. split; [reflexivity|].
  cbn [heap outside]. split; [reflexivity|]. split; [|reflexivity].
  eapply extends_trans.
  - eapply extends_update; [exact Hc|reflexivity|].
    intros conn r0 [= <- <-]. eauto.
  - eapply extends_update;
      [cbn [objects set_objects]; apply lookup_insert_eq|reflexivity|].
    intros conn r0 [= <- <-]. eauto.
Qed.

(** ** Construction *)

Lemma fresh_address {St} (w : World St) : heap w !! fresh (dom (heap w)) = None.
Proof. apply not_elem_of_dom, is_fresh. Qed.

(** [S3Adapter(bucket_name)] yields an adapter bound to that bucket. *)
Lemma constructed_s3_adapter d (w : World Store) b :
  exists l w',
    instantiate store_clients (S d) Class.S3Adapter [VStr b] [] w
    = (inl (VObj l), w')
    /\ heap w !! l = None
    /\ s3_adapter w' l b
    /\ contents (outside w') = contents (outside w).
Proof.
  unfold instantiate. set (l := fresh (dom (heap w))).
  rewrite run_Send. cbn [heap outside trace]. rewrite lookup_insert_eq.
  simpl resolve. unfold S3Adapter.__init__. simpl bind_params. cbv iota.
  rewrite run_bind, run_Invoke. cbn [heap outside trace].
  change (store_clients (CGlobal "boto3.resource" [VStr (lit "s3")] [])
            (outside w)) with (alloc XResource (outside w)).
  unfold alloc at 1. rewrite run_Ret, run_SetAttr. cbn [heap outside trace].
  rewrite lookup_insert_eq. cbn [class_of attrs].
  rewrite run_bind, run_bind, run_GetAttr. cbn [heap outside trace].
  rewrite lookup_insert_eq. cbn [attrs]. rewrite lookup_insert_eq, run_Ret.
  unfold call_method. rewrite run_Invoke. cbn [heap outside trace].
  match goal with
  | |- context [store_clients ?c ?st] =>
      replace (store_clients c st) with (alloc (XBucket b) st)
        by (unfold store_clients, relational_client, document_client,
              object_client; cbn [objects set_objects];
            now rewrite lookup_insert_eq)
  end.
  unfold alloc. rewrite run_Ret, run_SetAttr. cbn [heap outside trace].
  rewrite lookup_insert_eq, !run_Ret. cbn [class_of attrs].
  exists l. eexists. split; [reflexivity|].
  split; [apply fresh_address|]. split; [|reflexivity].
  eexists. eexists. cbn [heap outside objects set_objects].
  split; [apply lookup_insert_eq|].
  split; apply lookup_insert_eq.
Qed.

(** [MongoDBAdapter(connection_uri, db_name)] yields an adapter bound to
    that database. *)
Lemma constructed_mongo_adapter d (w : World Store) uri db :
  db <> [] ->
  exists l w',
    instantiate store_clients (S d) Class.MongoDBAdapter
      [VStr uri; VStr db] [] w
    = (inl (VObj l), w')
    /\ heap w !! l = None
    /\ mongo_adapter w' l db
    /\ contents (outside w') = contents (outside w).
Proof.
  intros Hdb. unfold instantiate. set (l := fresh (dom (heap w))).
  rewrite run_Send. cbn [heap outside trace]. rewrite lookup_insert_eq.
  simpl resolve. unfold MongoDBAdapter.__init__. simpl bind_params. cbv iota.
  rewrite run_bind, run_Invoke. cbn [heap outside trace].
  change (store_clients (CGlobal "pymongo.MongoClient" [VStr uri] [])
            (outside w)) with (alloc XMongoClient (outside w)).
  unfold alloc at 1. rewrite run_Ret, run_SetAttr. cbn [heap outside trace].
  rewrite lookup_insert_eq. cbn [class_of attrs].
  rewrite run_bind, run_bind, run_GetAttr. cbn [heap outside trace].
  rewrite lookup_insert_eq. cbn [attrs]. rewrite lookup_insert_eq, run_Ret.
  unfold py_getitem. rewrite run_Invoke. cbn [heap outside trace].
  match goal with
  | |- context [store_clients ?c ?st] =>
      replace (store_clients c st) with (alloc (XDatabase db) st)
        by (unfold store_clients, relational_client, document_client;
            cbn [objects set_objects]; rewrite lookup_insert_eq;
            now destruct db)
  end.
  unfold alloc. rewrite run_Ret, run_SetAttr. cbn [heap outside trace].
  rewrite lookup_insert_eq, !run_Ret. cbn [class_of attrs].
  exists l. eexists. split; [reflexivity|].
  split; [apply fresh_address|]. split; [|reflexivity].
  eexists. eexists. cbn [heap outside objects set_objects].
  split; [apply lookup_insert_eq|].
  split; apply lookup_insert_eq.
Qed.

(** [MySQLAdapter(connection_details)] yields an adapter holding a session
    and a cursor of it. *)
Lemma constructed_mysql_adapter d (w : World Store) details :
  exists l w',
    instantiate store_clients (S d) Class.MySQLAdapter [VDict details] [] w
    = (inl (VObj l), w')
    /\ heap w !! l = None
    /\ mysql_adapter w' l
    /\ contents (outside w') = contents (outside w).
Proof.
  unfold instantiate. set (l := fresh (dom (heap w))).
  rewrite run_Send. cbn [heap outside trace]. rewrite lookup_insert_eq.
  simpl resolve. unfold MySQLAdapter.__init__. simpl bind_params. cbv iota.
  unfold unpack_kwargs. rewrite run_bind, run_Invoke. cbn [heap outside trace].
  change (store_clients (CGlobal "mysql.connector.connect" [] details)
            (outside w)) with (alloc XConnection (outside w)).
  unfold alloc at 1. rewrite run_Ret, run_SetAttr. cbn [heap outside trace].
  rewrite lookup_insert_eq. cbn [class_of attrs].
  rewrite run_bind, run_bind, run_GetAttr. cbn [heap outside trace].
  rewrite lookup_insert_eq. cbn [attrs]. rewrite lookup_insert_eq, run_Ret.
  unfold call_method. rewrite run_Invoke. cbn [heap outside trace].
  set (hn := fresh (dom (objects (outside w)))).
  match goal with
  | |- context [store_clients ?c ?st] =>
      replace (store_clients c st) with (alloc (XCursor hn None) st)
        by (unfold store_clients, relational_client;
            cbn [objects set_objects]; now rewrite lookup_insert_eq)
  end.
  unfold alloc. rewrite run_Ret, run_SetAttr. cbn [heap outside trace].
  rewrite lookup_insert_eq, !run_Ret. cbn [class_of attrs].
  exists l. eexists. split; [reflexivity|].
  split; [apply fresh_address|]. split; [|reflexivity].
  eexists. exists (fresh (dom (<[hn := XConnection]> (objects (outside w))))).
  exists hn, None. cbn [heap outside objects set_objects].
  split; [apply lookup_insert_eq|].
  split; [apply lookup_insert_eq|].
  split; [rewrite lookup_insert_ne by discriminate; apply lookup_insert_eq|].
  split; [apply lookup_insert_eq|].
  rewrite lookup_insert_ne; [apply lookup_insert_eq|].
  intros E. pose proof (is_fresh (dom (<[hn := XConnection]>
                                         (objects (outside w))))) as Hfr.
  rewrite E in Hfr. apply Hfr, elem_of_dom.
  rewrite lookup_insert_eq. eauto.
Qed.

(** ** Round trips *)

(** C1. On each of the three adapters, a write of a correctly shaped
    payload followed by a read of the same identifier gives the payload
    back: the object-storage adapter returns exactly the text written (any
    text UTF-8 can encode, decoding being a left inverse of encoding), the
    document adapter returns the documents of the collection followed by
    the one written, the relational adapter the rows of the table followed
    by the row written. *)
Theorem write_then_read_round_trip d (w : World Store) l :
  (forall s bs, utf8_encode s = Some bs -> utf8_decode bs = Some s)
  /\ (forall b objs k s,
        s3_adapter w l b ->
        buckets (outside w) !! b = Some objs ->
        Forall scalar_value s ->
        exists w1 w2,
          call store_clients (S d) (VObj l) Sel.write_data
            [VStr k; VStr s] [] w = (inl VNone, w1)
          /\ call store_clients (S d) (VObj l) Sel.read_data [VStr k] [] w1
             = (inl (VStr s), w2))
  /\ (forall db name doc,
        mongo_adapter w l db ->
        name <> [] ->
        exists w1 w2,
          call store_clients (S d) (VObj l) Sel.write_data
            [VStr name; VDict doc] [] w = (inl VNone, w1)
          /\ call store_clients (S d) (VObj l) Sel.read_data [VStr name] [] w1
             = (inl (VList (documents (outside w) db name ++ [VDict doc])),
                w2))
  /\ (forall t rows data row,
        mysql_adapter w l ->
        sql_identifier t = true ->
        tables (outside w) !! t = Some rows ->
        sql_row data = Some row ->
        exists w1 w2,
          call store_clients (S d) (VObj l) Sel.write_data
            [VStr t; data] [] w = (inl VNone, w1)
          /\ call store_clients (S d) (VObj l) Sel.read_data [VStr t] [] w1
             = (inl (VList (rows ++ [row])), w2)).
Proof.
  split; [exact utf8_decode_encode|]. repeat split.
  - intros b objs k s Ha Hobjs Hs.
    destruct (utf8_encode_total s Hs) as [content Henc].
    destruct (s3_write_stores d w l b objs k s content Ha Hobjs Henc)
      as (w1 & Hw & Hh & He & Hc).
    injection Hc as _ _ _ Hb.
    destruct (s3_read_returns d w1 l b (<[k := content]> objs) k s content)
      as (w2 & Hr & _).
    + eapply s3_adapter_extends; eauto.
    + rewrite Hb. apply lookup_insert_eq.
    + apply lookup_insert_eq.
    + now apply utf8_decode_encode.
    + eauto.
  - intros db name doc Ha Hn.
    destruct (mongo_write_stores d w l db name doc Ha Hn)
      as (w1 & Hw & Hh & He & Hc).
    injection Hc as _ _ Hcoll _.
    destruct (mongo_read_returns d w1 l db name) as (w2 & hc & hf & Hr & _).
    + eapply mongo_adapter_extends; eauto.
    + exact Hn.
    + exists w1, w2. split; [exact Hw|]. rewrite Hr, filter_matches_nil.
      unfold documents at 1. rewrite Hcoll, lookup_insert_eq. reflexivity.
  - intros t rows data row Ha Ht Hrows Hrow.
    destruct (mysql_write_stores d w l t rows data row Ha Ht Hrows Hrow)
      as (w1 & Hw & Hh & He & Hc).
    injection Hc as Htab _ _ _.
    destruct (mysql_read_returns d w1 l t (rows ++ [row])) as (w2 & Hr & _).
    + eapply mysql_adapter_extends; eauto.
    + exact Ht.
    + rewrite Htab. apply lookup_insert_eq.
    + eauto.
Qed.

Lemma demo_s3_adapter : s3_adapter demo_world 2 (lit "mybucket").
Proof.
  exists (<["bucket" := VExt 5]> {["s3" := VExt 4]}), 5%N.
  repeat split; vm_compute; reflexivity.
Qed.

Lemma demo_mongo_adapter : mongo_adapter demo_world 1 (lit "dbname").
Proof.
  exists (<["db" := VExt 3]> {["client" := VExt 2]}), 3%N.
  repeat split; vm_compute; reflexivity.
Qed.


Lemma hello_scalar : Forall scalar_value (lit "hello").
Proof. repeat constructor; left; reflexivity. Qed.

Lemma write_then_read_round_trip_witness :
  exists w1 w2,
    call store_clients 1 (VObj 2) Sel.write_data
      [VStr (lit "f.txt"); VStr (lit "hello")] [] demo_world = (inl VNone, w1)
    /\ call store_clients 1 (VObj 2) Sel.read_data [VStr (lit "f.txt")] [] w1
       = (inl (VStr (lit "hello")), w2).
Proof.
  apply (proj1 (proj2 (write_then_read_round_trip 0 demo_world 2))
           (lit "mybucket") ∅ (lit "f.txt") (lit "hello")).
  - exact demo_s3_adapter.
  - vm_compute. reflexivity.
  - exact hello_scalar.
Defined.

(** ** Repeated writes *)










(** ** Reading a collection *)

(** C7. [MongoDBAdapter.read_data(collection_name)] asks the collection for
    [find] with the empty filter and nothing else (no projection, no
    limit), builds a list of what was found, and returns it: exactly the
    documents the store holds for that collection, in their order. *)
Theorem mongo_read_data_all d (w : World Store) l db name :
  mongo_adapter w l db ->
  name <> [] ->
  exists w' hd hc hf,
    call store_clients (S d) (VObj l) Sel.read_data [VStr name] [] w
    = (inl (VList (documents (outside w) db name)), w')
    /\ contents (outside w') = contents (outside w)
    /\ trace w'
       = trace w
         ++ [(CGetItem (VExt hd) (VStr name), inl (VExt hc));
             (CMethod (VExt hc) Sel.find [VDict []] [], inl (VExt hf));
             (CGlobal "list" [VExt hf] [],
              inl (VList (documents (outside w) db name)))].
Proof.
  intros Ha Hn.
  destruct (mongo_read_returns d w l db name Ha Hn)
    as (w' & hc & hf & Hr & _ & _ & Hc & hd & Htr).
  rewrite filter_matches_nil in Hr, Htr.
  exists w', hd, hc, hf. auto.
Qed.

Lemma filled_mongo_adapter : mongo_adapter filled_world 1 (lit "dbname").
Proof.
  exists (<["db" := VExt 3]> {["client" := VExt 2]}), 3%N.
  repeat split; vm_compute; reflexivity.
Qed.

Lemma mongo_read_data_all_witness :
  exists w' hd hc hf,
    call store_clients 1 (VObj 1) Sel.read_data [VStr (lit "mycollection")] []
      filled_world
    = (inl (VList [VDict [(lit "key", VStr (lit "value"))];
                   VDict [(lit "key", VStr (lit "other"));
                          (lit "n", VInt 2)]]), w')
    /\ contents (outside w') = contents (outside filled_world)
    /\ trace w'
       = trace filled_world
         ++ [(CGetItem (VExt hd) (VStr (lit "mycollection")), inl (VExt hc));
             (CMethod (VExt hc) Sel.find [VDict []] [], inl (VExt hf));
             (CGlobal "list" [VExt hf] [],
              inl (VList [VDict [(lit "key", VStr (lit "value"))];
                          VDict [(lit "key", VStr (lit "other"));
                                 (lit "n", VInt 2)]]))].
Proof.
  apply (mongo_read_data_all 0 filled_world 1 (lit "dbname")
           (lit "mycollection")).
  - exact filled_mongo_adapter.
  - discriminate.
Defined.

(** ** Payloads that are not text *)


Lemma s3_write_data_runs {St} (h : Handler St) d (w : World St)
  l fields hb file_name data :
  heap w !! l = Some (mkObj Class.S3Adapter fields) ->
  fields !! "bucket" = Some (VExt hb) ->
  call h (S d) (VObj l) Sel.write_data [file_name; data] [] w
  = run h d
      (Invoke (CMethod (VExt hb) Sel.Object [file_name] [])
         (fun obj =>
            encoded <- call_method data Sel.encode [VStr utf_8] [] ;;
            (call_method obj Sel.put [] [(lit "Body", encoded)] ;;;
             Ret VNone))) w.
Proof.
  intros Hl Hf.
  rewrite (call_resolved _ d w l _ Sel.write_data S3Adapter.write_data
             _ _ Hl eq_refl).
  unfold S3Adapter.write_data. simpl bind_params. cbv iota.
  rewrite run_bind, run_bind, run_GetAttr, Hl. cbn [attrs].
  rewrite Hf, run_Ret. unfold call_method at 1. rewrite !run_Invoke.
  destruct (h _ (outside w)) as [[obj|e] s1]; [|reflexivity].
  now rewrite run_Ret.
Qed.




(** * Further properties of the two files *)

(** ** The sensors *)

Lemma insert_insert_obj {St} (hp : gmap N Obj) l o1 o2 (s : St) tr :
  mkWorld (<[l := o2]> (<[l := o1]> hp)) s tr = mkWorld (<[l := o2]> hp) s tr.
Proof. now rewrite insert_insert_eq. Qed.

(** X1. A sensor of either class hands back the very value it was
    constructed with, whatever that value is: construction stores it
    without a check and [get_temperature] returns it unconverted, and
    neither makes a request to the outside. *)
Theorem sensor_reports_reading {St} (h : Handler St) d (w : World St) c t :
  plain_sensor c = true ->
  let l := fresh (dom (heap w)) in
  let w1 :=
    mkWorld (<[l := mkObj c {["temperature" := t]}]> (heap w))
            (outside w) (trace w) in
  instantiate h (S d) c [t] [] w = (inl (VObj l), w1)
  /\ call h (S d) (VObj l) Sel.get_temperature [] [] w1 = (inl t, w1).
Proof.
  intros Hc l w1. split.
  - unfold instantiate. fold l.
    destruct c; try discriminate;
      rewrite run_Send; cbn [heap outside trace];
      rewrite lookup_insert_eq; simpl resolve;
      [unfold CelsiusTemperatureSensor.__init__
      |unfold FahrenheitTemperatureSensor.__init__];
      simpl bind_params; cbv iota;
      rewrite run_SetAttr; cbn [heap outside trace class_of attrs];
      rewrite lookup_insert_eq, !run_Ret; cbn [class_of attrs];
      rewrite insert_insert_obj; reflexivity.
  - assert (heap w1 !! l = Some (mkObj c {["temperature" := t]})) as Hl
      by (subst w1; cbn [heap]; apply lookup_insert_eq).
    unfold call, call_method. rewrite run_Send, Hl. cbn [class_of].
    destruct c; try discriminate; simpl resolve;
      [unfold CelsiusTemperatureSensor.get_temperature
      |unfold FahrenheitTemperatureSensor.get_temperature];
      simpl bind_params; cbv iota;
      rewrite run_GetAttr, Hl; cbn [attrs];
      rewrite lookup_singleton_eq, !run_Ret; reflexivity.
Qed.

Lemma sensor_reports_reading_witness :
  instantiate nobody 1 Class.CelsiusTemperatureSensor [VStr (lit "warm")] []
    empty_world
  = (inl (VObj 0),
     mkWorld (<[0%N := mkObj Class.CelsiusTemperatureSensor
                         {["temperature" := VStr (lit "warm")]}]> ∅) tt [])
  /\ call nobody 1 (VObj 0) Sel.get_temperature [] []
       (mkWorld (<[0%N := mkObj Class.CelsiusTemperatureSensor
                            {["temperature" := VStr (lit "warm")]}]> ∅) tt [])
     = (inl (VStr (lit "warm")),
        mkWorld (<[0%N := mkObj Class.CelsiusTemperatureSensor
                            {["temperature" := VStr (lit "warm")]}]> ∅) tt []).
Proof.
  exact (sensor_reports_reading nobody 0 empty_world
           Class.CelsiusTemperatureSensor (VStr (lit "warm")) eq_refl).
Defined.

(** ** The conversion adapter and what it wraps *)

Section Wrapping.
Context {St : Type} (h : Handler St).

(** [get_temperature] asks whatever it wraps for its temperature, once and
    without arguments, and converts the answer. *)
Lemma adapter_delegates d (w : World St) a fa v :
  heap w !! a = Some (mkObj Class.TemperatureSensorAdapter fa) ->
  fa !! "fahrenheit_sensor" = Some v ->
  call h (S d) (VObj a) Sel.get_temperature [] [] w
  = match run h d (call_method v Sel.get_temperature [] []) w with
    | (inl t, w') => run h d (fahrenheit_to_celsius t) w'
    | (inr e, w') => (inr e, w')
    end.
Proof.
  intros Ha Hfa.
  rewrite (call_resolved h d w a _ Sel.get_temperature
             TemperatureSensorAdapter.get_temperature [] [] Ha eq_refl).
  unfold TemperatureSensorAdapter.get_temperature. simpl bind_params.
  cbv iota. rewrite run_bind, run_bind, run_GetAttr, Ha. cbn [attrs].
  rewrite Hfa, run_Ret. reflexivity.
Qed.

Lemma sensor_answers d (w : World St) s c fs F :
  heap w !! s = Some (mkObj c fs) ->
  plain_sensor c = true ->
  fs !! "temperature" = Some F ->
  run h (S d) (call_method (VObj s) Sel.get_temperature [] []) w = (inl F, w).
Proof.
  intros Hs Hc Hfs. unfold call_method. rewrite run_Send, Hs. cbn [class_of].
  destruct c; try discriminate; simpl resolve;
    [unfold CelsiusTemperatureSensor.get_temperature
    |unfold FahrenheitTemperatureSensor.get_temperature];
    simpl bind_params; cbv iota;
    rewrite run_GetAttr, Hs; cbn [attrs]; rewrite Hfs, !run_Ret; reflexivity.
Qed.

Lemma celsius_of_other d (w : World St) F :
  as_num F = None -> is_ext F = false ->
  run h d (fahrenheit_to_celsius F) w = (inr TypeError, w).
Proof.
  intros Hn He. unfold fahrenheit_to_celsius, py_sub, binop_other.
  rewrite run_bind, Hn, He. simpl. now rewrite run_Raise.
Qed.

End Wrapping.

(** X2. The adapter does not look at the class of what it wraps: around a
    [CelsiusTemperatureSensor] as around a [FahrenheitTemperatureSensor] it
    evaluates [(F - 32) * 5 / 9] on the reading [F], so a reading that is
    already in Celsius is converted all the same. *)
Theorem adapter_converts_any_sensor {St} (h : Handler St) d (w : World St)
  a fa s c fs F :
  heap w !! a = Some (mkObj Class.TemperatureSensorAdapter fa) ->
  fa !! "fahrenheit_sensor" = Some (VObj s) ->
  heap w !! s = Some (mkObj c fs) ->
  plain_sensor c = true ->
  fs !! "temperature" = Some F ->
  call h (S (S d)) (VObj a) Sel.get_temperature [] [] w
  = run h (S d) (fahrenheit_to_celsius F) w
  /\ (forall n f, F = VInt n ->
        int_true_divide ((n - 32) * 5) 9 = Some f ->
        call h (S (S d)) (VObj a) Sel.get_temperature [] [] w
        = (inl (VFloat f), w)).
Proof.
  intros Ha Hfa Hs Hc Hfs.
  assert (call h (S (S d)) (VObj a) Sel.get_temperature [] [] w
          = run h (S d) (fahrenheit_to_celsius F) w) as Hcall.
  { rewrite (adapter_delegates h (S d) w a fa (VObj s) Ha Hfa).
    now rewrite (sensor_answers h d w s c fs F Hs Hc Hfs). }
  split; [exact Hcall|].
  intros n f -> Hf. rewrite Hcall. now apply celsius_of_int.
Qed.

Lemma adapter_converts_any_sensor_witness :
  call nobody 2 (VObj 1) Sel.get_temperature [] [] (misused_world (VInt 77))
  = (inl (VFloat 25), misused_world (VInt 77)).
Proof.
  exact (proj2 (adapter_converts_any_sensor nobody 0
                  (misused_world (VInt 77)) 1%N
                  {["fahrenheit_sensor" := VObj 0]} 0%N
                  Class.CelsiusTemperatureSensor
                  {["temperature" := VInt 77]} (VInt 77)
                  eq_refl eq_refl eq_refl eq_refl eq_refl)
           77 25%float eq_refl eq_refl).
Defined.

(** X3. Adapters compose: an adapter around an adapter around a sensor that
    reads the [int] [n] converts twice, first [n] to the [float] nearest to
    [(n - 32) * 5 / 9], then that [float] with the three binary64
    operations, and leaves the heap as it was. *)
Theorem nested_adapters_convert_twice {St} (h : Handler St) d (w : World St)
  a2 f2 a1 f1 s fs n f :
  heap w !! a2 = Some (mkObj Class.TemperatureSensorAdapter f2) ->
  f2 !! "fahrenheit_sensor" = Some (VObj a1) ->
  heap w !! a1 = Some (mkObj Class.TemperatureSensorAdapter f1) ->
  f1 !! "fahrenheit_sensor" = Some (VObj s) ->
  heap w !! s = Some (mkObj Class.FahrenheitTemperatureSensor fs) ->
  fs !! "temperature" = Some (VInt n) ->
  int_true_divide ((n - 32) * 5) 9 = Some f ->
  call h (S (S (S d))) (VObj a2) Sel.get_temperature [] [] w
  = (inl (VFloat (PrimFloat.div (PrimFloat.mul (PrimFloat.sub f 32) 5) 9)),
     w).
Proof.
  intros Ha2 Hf2 Ha1 Hf1 Hs Hfs Hf.
  rewrite (adapter_delegates h (S (S d)) w a2 f2 (VObj a1) Ha2 Hf2).
  change (run h (S (S d)) (call_method (VObj a1) Sel.get_temperature [] []) w)
    with (call h (S (S d)) (VObj a1) Sel.get_temperature [] [] w).
  rewrite (adapter_reads_sensor h d w a1 s f1 fs (VInt n) Ha1 Hf1 Hs Hfs).
  rewrite (celsius_of_int h (S d) w n f Hf).
  apply celsius_of_float.
Qed.

Lemma nested_adapters_convert_twice_witness :
  call nobody 3 (VObj 2) Sel.get_temperature [] [] (nested_world (VInt 77))
  = (inl (VFloat (PrimFloat.div (PrimFloat.mul (PrimFloat.sub 25 32) 5) 9)),
     nested_world (VInt 77)).
Proof.
  exact (nested_adapters_convert_twice nobody 0 (nested_world (VInt 77))
           2%N {["fahrenheit_sensor" := VObj 1]}
           1%N {["fahrenheit_sensor" := VObj 0]}
           0%N {["temperature" := VInt 77]} 77 25%float
           eq_refl eq_refl eq_refl eq_refl eq_refl eq_refl eq_refl).
Defined.

(** X4. The adapter's constructor accepts anything: given a value of a
    builtin type (a number, a string, [None], ...) instead of a sensor, it
    stores it, and the failure comes only later, as the [AttributeError] of
    [get_temperature], with the heap left as it was. *)
Theorem adapter_around_builtin_fails_late {St} (h : Handler St) d
  (w : World St) v :
  builtin_value v = true ->
  let l := fresh (dom (heap w)) in
  let w1 :=
    mkWorld (<[l := mkObj Class.TemperatureSensorAdapter
                      {["fahrenheit_sensor" := v]}]> (heap w))
            (outside w) (trace w) in
  instantiate h (S d) Class.TemperatureSensorAdapter [v] [] w
  = (inl (VObj l), w1)
  /\ call h (S d) (VObj l) Sel.get_temperature [] [] w1
     = (inr AttributeError, w1).
Proof.
  intros Hv l w1. split.
  - unfold instantiate. fold l. rewrite run_Send. cbn [heap outside trace].
    rewrite lookup_insert_eq. simpl resolve.
    unfold TemperatureSensorAdapter.__init__. simpl bind_params. cbv iota.
    rewrite run_SetAttr. cbn [heap outside trace class_of attrs].
    rewrite lookup_insert_eq, !run_Ret. cbn [class_of attrs].
    rewrite insert_insert_obj. reflexivity.
  - rewrite (adapter_delegates h d w1 l {["fahrenheit_sensor" := v]} v).
    + replace (call_method v Sel.get_temperature [] [])
        with (Raise AttributeError)
        by (destruct v; try discriminate; reflexivity).
      now rewrite run_Raise.
    + subst w1. cbn [heap]. apply lookup_insert_eq.
    + apply lookup_singleton_eq.
Qed.

Lemma adapter_around_builtin_fails_late_witness :
  instantiate nobody 1 Class.TemperatureSensorAdapter [VInt 77] [] empty_world
  = (inl (VObj 0),
     mkWorld (<[0%N := mkObj Class.TemperatureSensorAdapter
                         {["fahrenheit_sensor" := VInt 77]}]> ∅) tt [])
  /\ call nobody 1 (VObj 0) Sel.get_temperature [] []
       (mkWorld (<[0%N := mkObj Class.TemperatureSensorAdapter
                            {["fahrenheit_sensor" := VInt 77]}]> ∅) tt [])
     = (inr AttributeError,
        mkWorld (<[0%N := mkObj Class.TemperatureSensorAdapter
                            {["fahrenheit_sensor" := VInt 77]}]> ∅) tt []).
Proof.
  exact (adapter_around_builtin_fails_late nobody 0 empty_world (VInt 77)
           eq_refl).
Defined.

(** X5. A reading that is not a number (a string, [None], bytes, a tuple, a
    list, a dictionary, an object of this program) makes [get_temperature]
    raise [TypeError], at the subtraction, with nothing changed and nothing
    requested. *)
Theorem non_numeric_reading_is_type_error {St} (h : Handler St) d
  (w : World St) a fa s c fs F :
  heap w !! a = Some (mkObj Class.TemperatureSensorAdapter fa) ->
  fa !! "fahrenheit_sensor" = Some (VObj s) ->
  heap w !! s = Some (mkObj c fs) ->
  plain_sensor c = true ->
  fs !! "temperature" = Some F ->
  as_num F = None ->
  is_ext F = false ->
  call h (S (S d)) (VObj a) Sel.get_temperature [] [] w = (inr TypeError, w).
Proof.
  intros Ha Hfa Hs Hc Hfs Hn He.
  rewrite (adapter_delegates h (S d) w a fa (VObj s) Ha Hfa).
  rewrite (sensor_answers h d w s c fs F Hs Hc Hfs).
  now apply celsius_of_other.
Qed.

Lemma non_numeric_reading_is_type_error_witness :
  call nobody 2 (VObj 1) Sel.get_temperature [] []
    (sensor_world (VStr (lit "77")))
  = (inr TypeError, sensor_world (VStr (lit "77"))).
Proof.
  exact (non_numeric_reading_is_type_error nobody 0
           (sensor_world (VStr (lit "77")))
           1%N {["fahrenheit_sensor" := VObj 0]} 0%N
           Class.FahrenheitTemperatureSensor
           {["temperature" := VStr (lit "77")]} (VStr (lit "77"))
           eq_refl eq_refl eq_refl eq_refl eq_refl eq_refl eq_refl).
Defined.

(** X6. An adapter whose [fahrenheit_sensor] is the adapter itself never
    answers: at every call depth allowed, [get_temperature] ends in
    [RecursionError], with nothing changed and nothing requested. *)
Theorem self_wrapping_adapter_recurses {St} (h : Handler St) (w : World St)
  a fa :
  heap w !! a = Some (mkObj Class.TemperatureSensorAdapter fa) ->
  fa !! "fahrenheit_sensor" = Some (VObj a) ->
  forall d,
    call h d (VObj a) Sel.get_temperature [] [] w = (inr RecursionError, w).
Proof.
  intros Ha Hfa d. induction d as [|d IH].
  - unfold call, call_method. now rewrite run_Send_0, Ha.
  - rewrite (adapter_delegates h d w a fa (VObj a) Ha Hfa).
    change (run h d (call_method (VObj a) Sel.get_temperature [] []) w)
      with (call h d (VObj a) Sel.get_temperature [] [] w).
    now rewrite IH.
Qed.

Lemma self_wrapping_adapter_recurses_witness :
  call nobody 1000 (VObj 0) Sel.get_temperature [] [] looped_world
  = (inr RecursionError, looped_world).
Proof.
  exact (self_wrapping_adapter_recurses nobody looped_world 0%N
           {["fahrenheit_sensor" := VObj 0]} eq_refl eq_refl 1000%nat).
Defined.

(** ** The constructors of the data store adapters *)

(** X7. [MySQLAdapter(connection_details)] passes the items of the
    dictionary to [mysql.connector.connect] as keyword arguments, asks the
    session it gets for one cursor, and keeps both, [connection] and
    [cursor], in the new object; these two requests are all it makes. When
    the connection fails, that failure is the result and no cursor is asked
    for. *)
Theorem mysql_constructor_connects {St} (h : Handler St) d (w : World St)
  details :
  let l := fresh (dom (heap w)) in
  let connect := CGlobal "mysql.connector.connect" [] details in
  let construct :=
    instantiate h (S d) Class.MySQLAdapter [VDict details] [] w in
  (forall e s1,
     h connect (outside w) = (inr e, s1) ->
     fst construct = inr e
     /\ outside (snd construct) = s1
     /\ trace (snd construct) = trace w ++ [(connect, inr e)])
  /\ (forall hn s1 cur s2,
        h connect (outside w) = (inl (VExt hn), s1) ->
        h (CMethod (VExt hn) Sel.cursor [] []) s1 = (inl cur, s2) ->
        construct
        = (inl (VObj l),
           mkWorld
             (<[l := mkObj Class.MySQLAdapter
                       (<["cursor" := cur]> {["connection" := VExt hn]})]>
                (heap w))
             s2
             (trace w ++ [(connect, inl (VExt hn));
                          (CMethod (VExt hn) Sel.cursor [] [], inl cur)]))).
Proof.
  intros l connect construct. subst construct. unfold instantiate. fold l.
  rewrite run_Send. cbn [heap outside trace]. rewrite lookup_insert_eq.
  simpl resolve. unfold MySQLAdapter.__init__. simpl bind_params. cbv iota.
  unfold unpack_kwargs. rewrite run_bind, run_Invoke. cbn [heap outside trace].
  fold connect. split.
  - intros e s1 He. rewrite He. cbn. auto.
  - intros hn s1 cur s2 Hc Hk. rewrite Hc, run_Ret, run_SetAttr.
    cbn [heap outside trace]. rewrite lookup_insert_eq. cbn [class_of attrs].
    rewrite run_bind, run_bind, run_GetAttr. cbn [heap outside trace].
    rewrite lookup_insert_eq. cbn [attrs]. rewrite lookup_insert_eq, run_Ret.
    unfold call_method. rewrite run_Invoke. cbn [heap outside trace].
    rewrite Hk, run_Ret, run_SetAttr. cbn [heap outside trace].
    rewrite lookup_insert_eq, !run_Ret. cbn [class_of attrs].
    rewrite !insert_insert_obj, <- app_assoc. reflexivity.
Qed.

Lemma mysql_constructor_connects_witness :
  exists w',
    instantiate store_clients 1 Class.MySQLAdapter [VDict demo_details] []
      start_world
    = (inl (VObj 0), w')
    /\ statements (trace w') = []
    /\ mysql_adapter w' 0.
Proof.
  eexists. split; [|split].
  - eapply (proj2 (mysql_constructor_connects store_clients 0 start_world
                     demo_details)).
    + vm_compute. reflexivity.
    + vm_compute. reflexivity.
  - reflexivity.
  - exists (<["cursor" := VExt 1]> {["connection" := VExt 0]}), 1%N, 0%N, None.
    repeat split; vm_compute; reflexivity.
Defined.

(** X8. [MongoDBAdapter(connection_uri, db_name)] makes a client for the
    URI, takes the database out of it by subscript, and keeps both,
    [client] and [db], in the new object; these two requests are all it
    makes, and neither argument is checked. When the client cannot be made,
    that failure is the result and no database is asked for. *)
Theorem mongo_constructor_selects_database {St} (h : Handler St) d
  (w : World St) connection_uri db_name :
  let l := fresh (dom (heap w)) in
  let connect := CGlobal "pymongo.MongoClient" [connection_uri] [] in
  let construct :=
    instantiate h (S d) Class.MongoDBAdapter [connection_uri; db_name] [] w in
  (forall e s1,
     h connect (outside w) = (inr e, s1) ->
     fst construct = inr e
     /\ outside (snd construct) = s1
     /\ trace (snd construct) = trace w ++ [(connect, inr e)])
  /\ (forall hc s1 db s2,
        h connect (outside w) = (inl (VExt hc), s1) ->
        h (CGetItem (VExt hc) db_name) s1 = (inl db, s2) ->
        construct
        = (inl (VObj l),
           mkWorld
             (<[l := mkObj Class.MongoDBAdapter
                       (<["db" := db]> {["client" := VExt hc]})]> (heap w))
             s2
             (trace w ++ [(connect, inl (VExt hc));
                          (CGetItem (VExt hc) db_name, inl db)]))).
Proof.
  intros l connect construct. subst construct. unfold instantiate. fold l.
  rewrite run_Send. cbn [heap outside trace]. rewrite lookup_insert_eq.
  simpl resolve. unfold MongoDBAdapter.__init__. simpl bind_params. cbv iota.
  rewrite run_bind, run_Invoke. cbn [heap outside trace]. fold connect. split.
  - intros e s1 He. rewrite He. cbn. auto.
  - intros hc s1 db s2 Hc Hk. rewrite Hc, run_Ret, run_SetAttr.
    cbn [heap outside trace]. rewrite lookup_insert_eq. cbn [class_of attrs].
    rewrite run_bind, run_bind, run_GetAttr. cbn [heap outside trace].
    rewrite lookup_insert_eq. cbn [attrs]. rewrite lookup_insert_eq, run_Ret.
    unfold py_getitem. rewrite run_Invoke. cbn [heap outside trace].
    rewrite Hk, run_Ret, run_SetAttr. cbn [heap outside trace].
    rewrite lookup_insert_eq, !run_Ret. cbn [class_of attrs].
    rewrite !insert_insert_obj, <- app_assoc. reflexivity.
Qed.

Lemma mongo_constructor_selects_database_witness :
  exists w',
    instantiate store_clients 1 Class.MongoDBAdapter
      [VStr (lit "mongodb://localhost:27017/"); VStr (lit "dbname")] []
      start_world
    = (inl (VObj 0), w')
    /\ mongo_adapter w' 0 (lit "dbname").
Proof.
  eexists. split.
  - eapply (proj2 (mongo_constructor_selects_database store_clients 0
                     start_world (VStr (lit "mongodb://localhost:27017/"))
                     (VStr (lit "dbname")))).
    + vm_compute. reflexivity.
    + vm_compute. reflexivity.
  - exists (<["db" := VExt 1]> {["client" := VExt 0]}), 1%N.
    repeat split; vm_compute; reflexivity.
Defined.

(** X9. [S3Adapter(bucket_name)] asks [boto3.resource] for the service
    [s3], asks the service for the bucket of that name, and keeps both,
    [s3] and [bucket], in the new object; these two requests are all it
    makes, and the name is not checked. When the service cannot be had,
    that failure is the result and no bucket is asked for. *)
Theorem s3_constructor_binds_bucket {St} (h : Handler St) d (w : World St)
  bucket_name :
  let l := fresh (dom (heap w)) in
  let resource := CGlobal "boto3.resource" [VStr (lit "s3")] [] in
  let construct := instantiate h (S d) Class.S3Adapter [bucket_name] [] w in
  (forall e s1,
     h resource (outside w) = (inr e, s1) ->
     fst construct = inr e
     /\ outside (snd construct) = s1
     /\ trace (snd construct) = trace w ++ [(resource, inr e)])
  /\ (forall hr s1 bucket s2,
        h resource (outside w) = (inl (VExt hr), s1) ->
        h (CMethod (VExt hr) Sel.Bucket [bucket_name] []) s1
        = (inl bucket, s2) ->
        construct
        = (inl (VObj l),
           mkWorld
             (<[l := mkObj Class.S3Adapter
                       (<["bucket" := bucket]> {["s3" := VExt hr]})]> (heap w))
             s2
             (trace w ++ [(resource, inl (VExt hr));
                          (CMethod (VExt hr) Sel.Bucket [bucket_name] [],
                           inl bucket)]))).
Proof.
  intros l resource construct. subst construct. unfold instantiate. fold l.
  rewrite run_Send. cbn [heap outside trace]. rewrite lookup_insert_eq.
  simpl resolve. unfold S3Adapter.__init__. simpl bind_params. cbv iota.
  rewrite run_bind, run_Invoke. cbn [heap outside trace]. fold resource.
  split.
  - intros e s1 He. rewrite He. cbn. auto.
  - intros hr s1 bucket s2 Hc Hk. rewrite Hc, run_Ret, run_SetAttr.
    cbn [heap outside trace]. rewrite lookup_insert_eq. cbn [class_of attrs].
    rewrite run_bind, run_bind, run_GetAttr. cbn [heap outside trace].
    rewrite lookup_insert_eq. cbn [attrs]. rewrite lookup_insert_eq, run_Ret.
    unfold call_method. rewrite run_Invoke. cbn [heap outside trace].
    rewrite Hk, run_Ret, run_SetAttr. cbn [heap outside trace].
    rewrite lookup_insert_eq, !run_Ret. cbn [class_of attrs].
    rewrite !insert_insert_obj, <- app_assoc. reflexivity.
Qed.

Lemma s3_constructor_binds_bucket_witness :
  exists w',
    instantiate store_clients 1 Class.S3Adapter [VStr (lit "mybucket")] []
      start_world
    = (inl (VObj 0), w')
    /\ s3_adapter w' 0 (lit "mybucket").
Proof.
  eexists. split.
  - eapply (proj2 (s3_constructor_binds_bucket store_clients 0 start_world
                     (VStr (lit "mybucket")))).
    + vm_compute. reflexivity.
    + vm_compute. reflexivity.
  - exists (<["bucket" := VExt 1]> {["s3" := VExt 0]}), 1%N.
    repeat split; vm_compute; reflexivity.
Defined.

(** X10. [MySQLAdapter(x)] with [x] of a builtin type other than [dict]
    (a string, a number, [None], a list, ...) raises [TypeError] at the
    [**] of the call, before any connection is requested. *)
Theorem mysql_constructor_needs_mapping {St} (h : Handler St) d
  (w : World St) v :
  not_mapping v = true ->
  let construct := instantiate h (S d) Class.MySQLAdapter [v] [] w in
  fst construct = inr TypeError
  /\ outside (snd construct) = outside w
  /\ trace (snd construct) = trace w.
Proof.
  intros Hv construct. subst construct. unfold instantiate.
  rewrite run_Send. cbn [heap outside trace]. rewrite lookup_insert_eq.
  simpl resolve. unfold MySQLAdapter.__init__. simpl bind_params. cbv iota.
  rewrite run_bind.
  replace (unpack_kwargs v _) with (Raise TypeError)
    by (destruct v; try discriminate; reflexivity).
  rewrite run_Raise. cbn. auto.
Qed.

Lemma mysql_constructor_needs_mapping_witness :
  fst (instantiate store_clients 1 Class.MySQLAdapter
         [VStr (lit "localhost")] [] start_world) = inr TypeError
  /\ outside (snd (instantiate store_clients 1 Class.MySQLAdapter
                     [VStr (lit "localhost")] [] start_world))
     = outside start_world
  /\ trace (snd (instantiate store_clients 1 Class.MySQLAdapter
                   [VStr (lit "localhost")] [] start_world))
     = trace start_world.
Proof.
  exact (mysql_constructor_needs_mapping store_clients 0 start_world
           (VStr (lit "localhost")) eq_refl).
Defined.

(** ** Signatures *)

(** Without keyword arguments, the arguments bind exactly when there are as
    many as parameters. *)
Lemma bind_params_positional names args :
  bind_params names args []
  = if decide (length args = length names) then Some args else None.
Proof.
  revert args. induction names as [|n names IH]; intros [|a args]; simpl;
    try reflexivity.
  rewrite IH. destruct (decide (length args = length names)) as [E|E];
    destruct (decide (S (length args) = S (length names))); simpl;
    try reflexivity; lia.
Qed.

(** X11. The interface itself can be instantiated: [DataStoreAdapter()]
    succeeds with no request and yields an object without attributes, on
    which both operations then raise [NotImplementedError];
    [DataStoreAdapter(x, ...)] with any argument raises [TypeError]. *)
Theorem interface_is_instantiable {St} (h : Handler St) d (w : World St) :
  let l := fresh (dom (heap w)) in
  let w1 :=
    mkWorld (<[l := mkObj Class.DataStoreAdapter ∅]> (heap w))
            (outside w) (trace w) in
  instantiate h (S d) Class.DataStoreAdapter [] [] w = (inl (VObj l), w1)
  /\ (forall identifier,
        call h (S d) (VObj l) Sel.read_data [identifier] [] w1
        = (inr NotImplementedError, w1))
  /\ (forall identifier data,
        call h (S d) (VObj l) Sel.write_data [identifier; data] [] w1
        = (inr NotImplementedError, w1))
  /\ (forall x args,
        instantiate h (S d) Class.DataStoreAdapter (x :: args) [] w
        = (inr TypeError, w1)).
Proof.
  intros l w1.
  assert (heap w1 !! l = Some (mkObj Class.DataStoreAdapter ∅)) as Hl
    by (subst w1; cbn [heap]; apply lookup_insert_eq).
  repeat split.
  - unfold instantiate. fold l. rewrite run_Send. cbn [heap outside trace].
    rewrite lookup_insert_eq. simpl resolve. unfold object_init.
    simpl bind_params. cbv iota. rewrite !run_Ret. reflexivity.
  - intros identifier.
    rewrite (call_resolved h d w1 l _ Sel.read_data
               DataStoreAdapter.read_data _ _ Hl eq_refl).
    apply run_Raise.
  - intros identifier data.
    rewrite (call_resolved h d w1 l _ Sel.write_data
               DataStoreAdapter.write_data _ _ Hl eq_refl).
    apply run_Raise.
  - intros x args. unfold instantiate. fold l. rewrite run_Send.
    cbn [heap outside trace]. rewrite lookup_insert_eq. simpl resolve.
    unfold object_init. simpl bind_params. cbv iota. rewrite run_Raise.
    reflexivity.
Qed.

(** X12. On the interface and on its three implementations, a positional
    call of [read_data] with any number of arguments but one, or of
    [write_data] with any number but two, raises [TypeError] before
    anything is read, requested or changed. *)
Theorem wrong_arity_is_type_error {St} (h : Handler St) d (w : World St)
  l c fields args :
  heap w !! l = Some (mkObj c fields) ->
  data_store_class c = true ->
  (length args <> 1%nat ->
   call h (S d) (VObj l) Sel.read_data args [] w = (inr TypeError, w))
  /\ (length args <> 2%nat ->
      call h (S d) (VObj l) Sel.write_data args [] w = (inr TypeError, w)).
Proof.
  intros Hl Hc. split; intros Hlen; unfold call, call_method;
    rewrite run_Send, Hl; cbn [class_of];
    destruct c; try discriminate; simpl resolve;
    cbv beta iota delta [DataStoreAdapter.read_data DataStoreAdapter.write_data
                         MySQLAdapter.read_data MySQLAdapter.write_data
                         MongoDBAdapter.read_data MongoDBAdapter.write_data
                         S3Adapter.read_data S3Adapter.write_data];
    rewrite bind_params_positional; simpl length;
    (destruct (decide _) as [E|_]; [contradiction|]);
    now rewrite !run_Raise.
Qed.

Lemma demo_mysql_object :
  heap demo_world !! 0%N
  = Some (mkObj Class.MySQLAdapter
            (<["cursor" := VExt 1]> {["connection" := VExt 0]})).
Proof. vm_compute. reflexivity. Qed.

Lemma wrong_arity_is_type_error_witness :
  call store_clients 1 (VObj 0) Sel.read_data [] [] demo_world
  = (inr TypeError, demo_world)
  /\ call store_clients 1 (VObj 0) Sel.write_data [VStr (lit "mytable")] []
       demo_world
     = (inr TypeError, demo_world).
Proof.
  split.
  - apply (proj1 (wrong_arity_is_type_error store_clients 0 demo_world 0%N
                    Class.MySQLAdapter _ [] demo_mysql_object eq_refl)).
    discriminate.
  - apply (proj2 (wrong_arity_is_type_error store_clients 0 demo_world 0%N
                    Class.MySQLAdapter _ [VStr (lit "mytable")]
                    demo_mysql_object eq_refl)).
    discriminate.
Defined.

(** ** The object-storage adapter, request by request *)

Lemma s3_read_data_runs {St} (h : Handler St) d (w : World St)
  l fields hb file_name :
  heap w !! l = Some (mkObj Class.S3Adapter fields) ->
  fields !! "bucket" = Some (VExt hb) ->
  call h (S d) (VObj l) Sel.read_data [file_name] [] w
  = run h d
      (Invoke (CMethod (VExt hb) Sel.Object [file_name] [])
         (fun obj =>
            response <- call_method obj Sel.get [] [] ;;
            body <- py_getitem response (VStr (lit "Body")) ;;
            content <- call_method body Sel.read [] [] ;;
            call_method content Sel.decode [VStr utf_8] [])) w.
Proof.
  intros Hl Hf.
  rewrite (call_resolved _ d w l _ Sel.read_data S3Adapter.read_data
             _ _ Hl eq_refl).
  unfold S3Adapter.read_data. simpl bind_params. cbv iota.
  rewrite run_bind, run_bind, run_GetAttr, Hl. cbn [attrs].
  rewrite Hf, run_Ret. unfold call_method at 1. rewrite !run_Invoke.
  destruct (h _ (outside w)) as [[obj|e] s1]; [|reflexivity].
  now rewrite run_Ret.
Qed.

(** X13. [S3Adapter.read_data] makes three requests, for the object handle,
    for [get] and for [read] of the response's ["Body"], and returns the
    bytes read decoded as UTF-8; when those bytes are not well-formed UTF-8
    it raises [UnicodeDecodeError] instead, and when the response holds no
    ["Body"] it raises [KeyError] without reading anything. *)
Theorem s3_read_data_decodes {St} (h : Handler St) d (w : World St)
  l fields hb file_name ho s1 response s2 :
  heap w !! l = Some (mkObj Class.S3Adapter fields) ->
  fields !! "bucket" = Some (VExt hb) ->
  let Object := CMethod (VExt hb) Sel.Object [file_name] [] in
  let get := CMethod (VExt ho) Sel.get [] [] in
  let read_data := call h (S d) (VObj l) Sel.read_data [file_name] [] w in
  h Object (outside w) = (inl (VExt ho), s1) ->
  h get s1 = (inl (VDict response), s2) ->
  (dict_get (lit "Body") response = None ->
   read_data
   = (inr KeyError,
      mkWorld (heap w) s2
        (trace w ++ [(Object, inl (VExt ho)); (get, inl (VDict response))])))
  /\ (forall hs content s3,
        dict_get (lit "Body") response = Some (VExt hs) ->
        h (CMethod (VExt hs) Sel.read [] []) s2 = (inl (VBytes content), s3) ->
        read_data
        = (match utf8_decode content with
           | Some text => inl (VStr text)
           | None => inr UnicodeDecodeError
           end,
           mkWorld (heap w) s3
             (trace w ++ [(Object, inl (VExt ho));
                          (get, inl (VDict response));
                          (CMethod (VExt hs) Sel.read [] [],
                           inl (VBytes content))]))).
Proof.
  intros Hl Hf Object get read_data HO Hg. subst read_data.
  rewrite (s3_read_data_runs h d w l fields hb file_name Hl Hf).
  fold Object. rewrite run_Invoke, HO. cbn [heap outside trace].
  rewrite run_bind.
  change (call_method (VExt ho) Sel.get [] []) with (Invoke get Ret).
  rewrite run_Invoke. cbn [heap outside trace]. rewrite Hg, run_Ret, run_bind.
  unfold py_getitem. split.
  - intros Hnone. rewrite Hnone, run_Raise. now rewrite <- app_assoc.
  - intros hs content s3 Hsome Hr. rewrite Hsome, run_Ret, run_bind.
    unfold call_method at 1. rewrite run_Invoke. cbn [heap outside trace].
    rewrite Hr, run_Ret. unfold call_method, builtin_has, codec_call.
    destruct (decide (utf_8 = utf_8)) as [_|]; [|contradiction].
    rewrite <- !app_assoc.
    destruct (utf8_decode content); [apply run_Ret|apply run_Raise].
Qed.

Lemma s3_read_data_decodes_witness :
  exists w',
    call store_clients 1 (VObj 2) Sel.read_data [VStr (lit "raw.bin")] []
      raw_world
    = (inr UnicodeDecodeError, w').
Proof.
  pose (Object := CMethod (VExt 5) Sel.Object [VStr (lit "raw.bin")] []).
  pose (s1 := snd (store_clients Object (outside raw_world))).
  pose (s2 := snd (store_clients (CMethod (VExt 6) Sel.get [] []) s1)).
  pose (s3 := snd (store_clients (CMethod (VExt 7) Sel.read [] []) s2)).
  assert (heap raw_world !! 2%N
          = Some (mkObj Class.S3Adapter
                    (<["bucket" := VExt 5]> {["s3" := VExt 4]}))) as Hl
    by (vm_compute; reflexivity).
  assert (store_clients Object (outside raw_world) = (inl (VExt 6), s1))
    as HO by (vm_compute; reflexivity).
  assert (store_clients (CMethod (VExt 6) Sel.get [] []) s1
          = (inl (VDict [(lit "Body", VExt 7)]), s2))
    as Hg by (vm_compute; reflexivity).
  assert (store_clients (CMethod (VExt 7) Sel.read [] []) s2
          = (inl (VBytes [Byte.xff]), s3))
    as Hr by (vm_compute; reflexivity).
  eexists.
  apply (proj2 (s3_read_data_decodes store_clients 0 raw_world 2%N
                  _ 5%N (VStr (lit "raw.bin")) 6%N s1
                  [(lit "Body", VExt 7)] s2 Hl eq_refl HO Hg)
           7%N [Byte.xff] s3 eq_refl Hr).
Defined.

(** X14. [S3Adapter.write_data] with a text as [data]: the text is encoded
    after the object handle has been requested and before anything is put.
    A text UTF-8 cannot encode (one with a lone surrogate) raises
    [UnicodeEncodeError] with no [put] requested; otherwise the one [put]
    carries the encoding as its [Body] and nothing else, and the call
    returns [None] whatever [put] answers, or fails as [put] fails. *)
Theorem s3_write_data_puts_encoding {St} (h : Handler St) d (w : World St)
  l fields hb file_name s ho s1 :
  heap w !! l = Some (mkObj Class.S3Adapter fields) ->
  fields !! "bucket" = Some (VExt hb) ->
  let Object := CMethod (VExt hb) Sel.Object [file_name] [] in
  let write_data :=
    call h (S d) (VObj l) Sel.write_data [file_name; VStr s] [] w in
  h Object (outside w) = (inl (VExt ho), s1) ->
  match utf8_encode s with
  | None =>
      write_data
      = (inr UnicodeEncodeError,
         mkWorld (heap w) s1 (trace w ++ [(Object, inl (VExt ho))]))
  | Some content =>
      let put := CMethod (VExt ho) Sel.put [] [(lit "Body", VBytes content)] in
      forall r s2,
        h put s1 = (r, s2) ->
        write_data
        = (match r with inl _ => inl VNone | inr e => inr e end,
           mkWorld (heap w) s2
             (trace w ++ [(Object, inl (VExt ho)); (put, r)]))
  end.
Proof.
  intros Hl Hf Object write_data HO.
  assert (write_data
          = run h d
              (encoded <- match utf8_encode s with
                          | Some content => Ret (VBytes content)
                          | None => Raise UnicodeEncodeError
                          end ;;
               (call_method (VExt ho) Sel.put [] [(lit "Body", encoded)] ;;;
                Ret VNone))
              (mkWorld (heap w) s1 (trace w ++ [(Object, inl (VExt ho))])))
    as Hrun.
  { subst write_data.
    rewrite (s3_write_data_runs h d w l fields hb file_name (VStr s) Hl Hf).
    fold Object. rewrite run_Invoke, HO.
    unfold call_method at 1, builtin_has, codec_call.
    now destruct (decide (utf_8 = utf_8)). }
  clearbody write_data. subst write_data.
  destruct (utf8_encode s) as [content|].
  - intros put r s2 Hp. rewrite run_bind, run_Ret, run_bind.
    change (call_method (VExt ho) Sel.put [] [(lit "Body", VBytes content)])
      with (Invoke put Ret).
    rewrite run_Invoke. cbn [heap outside trace]. rewrite Hp, <- app_assoc.
    destruct r as [v|e]; [now rewrite !run_Ret|reflexivity].
  - now rewrite run_bind, run_Raise.
Qed.

Lemma s3_write_data_puts_encoding_witness :
  exists w',
    call store_clients 1 (VObj 2) Sel.write_data
      [VStr (lit "f.txt"); VStr [0xD800%N]] [] demo_world
    = (inr UnicodeEncodeError, w')
    /\ puts (trace w') = [].
Proof.
  pose (Object := CMethod (VExt 5) Sel.Object [VStr (lit "f.txt")] []).
  pose (s1 := snd (store_clients Object (outside demo_world))).
  assert (heap demo_world !! 2%N
          = Some (mkObj Class.S3Adapter
                    (<["bucket" := VExt 5]> {["s3" := VExt 4]}))) as Hl
    by (vm_compute; reflexivity).
  assert (store_clients Object (outside demo_world) = (inl (VExt 6), s1))
    as HO by (vm_compute; reflexivity).
  eexists. split.
  - exact (s3_write_data_puts_encoding store_clients 0 demo_world 2%N _ 5%N
             (VStr (lit "f.txt")) [0xD800%N] 6%N s1 Hl eq_refl HO).
  - vm_compute. reflexivity.
Defined.

(** ** UTF-8, from bytes to text and back *)

Lemma byte_of_to_N b : byte_of (Byte.to_N b) = b.
Proof. unfold byte_of. now rewrite Byte.of_to_N. Qed.

Lemma to_N_lt_256 b : (Byte.to_N b < 256)%N.
Proof.
  destruct (N.ltb_spec (Byte.to_N b) 256) as [H|H]; [exact H|].
  pose proof (Byte.of_to_N b) as E.
  assert (Byte.of_N (Byte.to_N b) = None) as E'
    by (apply Byte.of_N_None_iff; lia).
  congruence.
Qed.

Ltac between_hyp H :=
  unfold between in H;
  rewrite ?andb_true_iff, ?N.leb_le in H.

Lemma utf8_decode_step b0 r0 s :
  utf8_decode (b0 :: r0) = Some s ->
  exists c s' pre rest,
    b0 :: r0 = pre ++ rest /\ (length rest < length (b0 :: r0))%nat
    /\ s = c :: s' /\ utf8_encode_cp c = Some pre
    /\ utf8_decode rest = Some s'.
Proof.
  rewrite utf8_decode_cons. cbv zeta.
  pose proof (to_N_lt_256 b0) as L0.
  destruct (N.ltb_spec (Byte.to_N b0) 0x80) as [H1|H1].
  { destruct (utf8_decode r0) as [s'|] eqn:E; [|discriminate].
    intros [= <-]. exists (Byte.to_N b0), s', [b0], r0.
    split; [reflexivity|]. split; [simpl; lia|]. split; [reflexivity|].
    split; [|exact E].
    unfold utf8_encode_cp.
    replace (Byte.to_N b0 <? 0x80)%N with true
      by (symmetry; apply N.ltb_lt; lia).
    now rewrite byte_of_to_N. }
  destruct (between 0xC2 (Byte.to_N b0) 0xDF) eqn:B2.
  { destruct r0 as [|b1 r1]; [discriminate|].
    destruct (between 0x80 (Byte.to_N b1) 0xBF) eqn:C1; [|discriminate].
    destruct (utf8_decode r1) as [s'|] eqn:E; [|discriminate].
    intros [= <-]. between_hyp B2. between_hyp C1.
    eexists _, s', [b0; b1], r1.
    split; [reflexivity|]. split; [simpl; lia|]. split; [reflexivity|].
    split; [|exact E].
    unfold utf8_encode_cp.
    match goal with |- context [N.ltb ?c 0x80] => set (c0 := c) end.
    replace (c0 <? 0x80)%N with false
      by (symmetry; apply N.ltb_ge; subst c0; dlia).
    replace (c0 <? 0x800)%N with true
      by (symmetry; apply N.ltb_lt; subst c0; dlia).
    replace (0xC0 + c0 / 64)%N with (Byte.to_N b0) by (subst c0; dlia).
    replace (0x80 + c0 mod 64)%N with (Byte.to_N b1) by (subst c0; dlia).
    now rewrite !byte_of_to_N. }
  destruct (between 0xE0 (Byte.to_N b0) 0xEF) eqn:B3.
  { destruct r0 as [|b1 [|b2 r2]]; [discriminate..|].
    match goal with
    | |- context [andb ?a ?b] => destruct a eqn:C1; [|discriminate];
                                 destruct b eqn:C2; [|discriminate]
    end.
    simpl andb. cbv iota.
    destruct (utf8_decode r2) as [s'|] eqn:E; [|discriminate].
    intros [= <-]. between_hyp B3. between_hyp C2.
    assert ((if (Byte.to_N b0 =? 0xE0)%N then 0xA0 else 0x80)
            <= Byte.to_N b1
            <= (if (Byte.to_N b0 =? 0xED)%N then 0x9F else 0xBF))%N as C1'.
    { between_hyp C1. lia. }
    clear C1.
    eexists _, s', [b0; b1; b2], r2.
    split; [reflexivity|]. split; [simpl; lia|]. split; [reflexivity|].
    split; [|exact E].
    unfold utf8_encode_cp.
    match goal with |- context [N.ltb ?c 0x80] => set (c0 := c) end.
    assert (0x800 <= c0 < 0x10000 /\ (c0 < 0xD800 \/ 0xDFFF < c0)
            /\ 0xE0 + c0 / 4096 = Byte.to_N b0
            /\ 0x80 + (c0 / 64) mod 64 = Byte.to_N b1
            /\ 0x80 + c0 mod 64 = Byte.to_N b2)%N as (Hr & Hs & E0 & E1 & E2).
    { subst c0.
      destruct (N.eqb_spec (Byte.to_N b0) 0xE0);
        destruct (N.eqb_spec (Byte.to_N b0) 0xED); dlia. }
    replace (c0 <? 0x80)%N with false by (symmetry; apply N.ltb_ge; lia).
    replace (c0 <? 0x800)%N with false by (symmetry; apply N.ltb_ge; lia).
    replace (c0 <? 0x10000)%N with true by (symmetry; apply N.ltb_lt; lia).
    replace ((0xD800 <=? c0)%N && (c0 <=? 0xDFFF)%N) with false
      by (symmetry; apply andb_false_iff;
          destruct Hs; [left|right]; apply N.leb_gt; lia).
    rewrite E0, E1, E2. now rewrite !byte_of_to_N. }
  destruct (between 0xF0 (Byte.to_N b0) 0xF4) eqn:B4; [|discriminate].
  destruct r0 as [|b1 [|b2 [|b3 r3]]]; [discriminate..|].
  match goal with
  | |- context [andb (andb ?a ?b) ?c] =>
      destruct a eqn:C1; [|discriminate];
      destruct b eqn:C2; [|discriminate];
      destruct c eqn:C3; [|discriminate]
  end.
  simpl andb. cbv iota.
  destruct (utf8_decode r3) as [s'|] eqn:E; [|discriminate].
  intros [= <-]. between_hyp B4. between_hyp C2. between_hyp C3.
  assert ((if (Byte.to_N b0 =? 0xF0)%N then 0x90 else 0x80)
          <= Byte.to_N b1
          <= (if (Byte.to_N b0 =? 0xF4)%N then 0x8F else 0xBF))%N as C1'.
  { between_hyp C1. lia. }
  clear C1.
  eexists _, s', [b0; b1; b2; b3], r3.
  split; [reflexivity|]. split; [simpl; lia|]. split; [reflexivity|].
  split; [|exact E].
  unfold utf8_encode_cp.
  match goal with |- context [N.ltb ?c 0x80] => set (c0 := c) end.
  assert (0x10000 <= c0 < 0x110000
          /\ 0xF0 + c0 / 262144 = Byte.to_N b0
          /\ 0x80 + (c0 / 4096) mod 64 = Byte.to_N b1
          /\ 0x80 + (c0 / 64) mod 64 = Byte.to_N b2
          /\ 0x80 + c0 mod 64 = Byte.to_N b3)%N as (Hr & E0 & E1 & E2 & E3).
  { subst c0.
    destruct (N.eqb_spec (Byte.to_N b0) 0xF0);
      destruct (N.eqb_spec (Byte.to_N b0) 0xF4); dlia. }
  replace (c0 <? 0x80)%N with false by (symmetry; apply N.ltb_ge; lia).
  replace (c0 <? 0x800)%N with false by (symmetry; apply N.ltb_ge; lia).
  replace (c0 <? 0x10000)%N with false by (symmetry; apply N.ltb_ge; lia).
  replace (c0 <? 0x110000)%N with true by (symmetry; apply N.ltb_lt; lia).
  rewrite E0, E1, E2, E3. now rewrite !byte_of_to_N.
Qed.

(** Encoding is a left inverse of decoding: the decoder accepts no byte
    sequence other than the encoding of the text it returns. *)
Lemma utf8_encode_decode bs s :
  utf8_decode bs = Some s -> utf8_encode s = Some bs.
Proof.
  remember (length bs) as n eqn:Hn. revert bs s Hn.
  induction n as [n IH] using lt_wf_ind. intros [|b0 r0] s Hn.
  - now intros [= <-].
  - intros Hd.
    destruct (utf8_decode_step _ _ _ Hd)
      as (c & s' & pre & rest & Hbs & Hlen & -> & Hc & Hrest).
    simpl. rewrite Hc.
    rewrite (IH (length rest) ltac:(subst n; exact Hlen) rest s' eq_refl Hrest).
    now rewrite Hbs.
Qed.

(** X15. What [S3Adapter.read_data] returns, given back to
    [S3Adapter.write_data], stores the very bytes that were read: on the
    store clients, when the object under [k] holds well-formed UTF-8,
    reading it and writing the text under [k'] leaves the bucket with the
    same bytes under [k'], and under [k] itself leaves the contents of the
    store as they were. *)
Theorem s3_read_then_write_back d (w : World Store) l b objs k k' content s :
  s3_adapter w l b ->
  buckets (outside w) !! b = Some objs ->
  objs !! k = Some content ->
  utf8_decode content = Some s ->
  exists w1 w2,
    call store_clients (S d) (VObj l) Sel.read_data [VStr k] [] w
    = (inl (VStr s), w1)
    /\ call store_clients (S d) (VObj l) Sel.write_data [VStr k'; VStr s] [] w1
       = (inl VNone, w2)
    /\ buckets (outside w2) !! b = Some (<[k' := content]> objs)
    /\ (k' = k -> contents (outside w2) = contents (outside w)).
Proof.
  intros Ha Hobjs Hk Hdec.
  destruct (s3_read_returns d w l b objs k s content Ha Hobjs Hk Hdec)
    as (w1 & Hread & Hh1 & He1 & Hc1).
  assert (buckets (outside w1) = buckets (outside w)) as Hb1
    by (unfold contents in Hc1; congruence).
  assert (buckets (outside w1) !! b = Some objs) as Hobjs1
    by now rewrite Hb1.
  destruct (s3_write_stores d w1 l b objs k' s content
              (s3_adapter_extends _ _ _ _ Hh1 He1 Ha) Hobjs1
              (utf8_encode_decode _ _ Hdec))
    as (w2 & Hwrite & _ & _ & Hc2).
  exists w1, w2. split; [exact Hread|]. split; [exact Hwrite|].
  assert (buckets (outside w2) = <[b := <[k' := content]> objs]>
                                   (buckets (outside w))) as Hb2.
  { unfold contents in Hc2. rewrite <- Hb1. congruence. }
  split.
  - rewrite Hb2. apply lookup_insert_eq.
  - intros ->. rewrite Hc2. unfold contents in *.
    injection Hc1 as -> -> -> ->.
    now rewrite (insert_id objs k content Hk), (insert_id _ b objs Hobjs).
Qed.

Lemma s3_read_then_write_back_witness :
  exists w1 w2,
    call store_clients 1 (VObj 2) Sel.read_data [VStr (lit "a.txt")] []
      stored_world
    = (inl (VStr (lit "hi")), w1)
    /\ call store_clients 1 (VObj 2) Sel.write_data
         [VStr (lit "b.txt"); VStr (lit "hi")] [] w1
       = (inl VNone, w2)
    /\ buckets (outside w2) !! lit "mybucket"
       = Some (<[lit "b.txt" := [Byte.x68; Byte.x69]]>
                 {[lit "a.txt" := [Byte.x68; Byte.x69]]})
    /\ (lit "b.txt" = lit "a.txt" ->
        contents (outside w2) = contents (outside stored_world)).
Proof.
  apply (s3_read_then_write_back 0 stored_world 2 (lit "mybucket")
           {[lit "a.txt" := [Byte.x68; Byte.x69]]} (lit "a.txt") (lit "b.txt")
           [Byte.x68; Byte.x69] (lit "hi")).
  - exists (<["bucket" := VExt 5]> {["s3" := VExt 4]}), 5%N.
    split; [vm_compute; reflexivity|].
    split; [reflexivity|vm_compute; reflexivity].
  - vm_compute. reflexivity.
  - vm_compute. reflexivity.
  - reflexivity.
Defined.

(** ** The document adapter, request by request *)

(** X16. [MongoDBAdapter.write_data] makes two requests, for the collection
    of that name and for [insert_one] with [data] as its only argument,
    whatever kind of value [data] is; what [insert_one] answers (the result
    that carries the new identifier) is dropped and [None] is returned, and
    a failure of [insert_one] is the failure of the call. *)
Theorem mongo_write_data_drops_result {St} (h : Handler St) d (w : World St)
  l fields hd collection_name data hc s1 r s2 :
  heap w !! l = Some (mkObj Class.MongoDBAdapter fields) ->
  fields !! "db" = Some (VExt hd) ->
  let getitem := CGetItem (VExt hd) collection_name in
  let insert_one := CMethod (VExt hc) Sel.insert_one [data] [] in
  h getitem (outside w) = (inl (VExt hc), s1) ->
  h insert_one s1 = (r, s2) ->
  call h (S d) (VObj l) Sel.write_data [collection_name; data] [] w
  = (match r with inl _ => inl VNone | inr e => inr e end,
     mkWorld (heap w) s2
       (trace w ++ [(getitem, inl (VExt hc)); (insert_one, r)])).
Proof.
  intros Hl Hf getitem insert_one Hg Hi.
  rewrite (call_resolved _ d w l _ Sel.write_data MongoDBAdapter.write_data
             _ _ Hl eq_refl).
  unfold MongoDBAdapter.write_data. simpl bind_params. cbv iota.
  rewrite run_bind, run_bind, run_GetAttr, Hl. cbn [attrs].
  rewrite Hf, run_Ret.
  change (py_getitem (VExt hd) collection_name) with (Invoke getitem Ret).
  rewrite run_Invoke, Hg. cbn [heap outside trace]. rewrite run_Ret, run_bind.
  change (call_method (VExt hc) Sel.insert_one [data] [])
    with (Invoke insert_one Ret).
  rewrite run_Invoke. cbn [heap outside trace]. rewrite Hi, <- app_assoc.
  destruct r as [v|e]; [now rewrite !run_Ret|reflexivity].
Qed.

Lemma mongo_write_data_drops_result_witness :
  exists w',
    call store_clients 1 (VObj 1) Sel.write_data
      [VStr (lit "mycollection"); VDict [(lit "key", VStr (lit "value"))]] []
      demo_world
    = (inl VNone, w').
Proof.
  pose (getitem := CGetItem (VExt 3) (VStr (lit "mycollection"))).
  pose (s1 := snd (store_clients getitem (outside demo_world))).
  pose (insert_one := CMethod (VExt 6) Sel.insert_one
                        [VDict [(lit "key", VStr (lit "value"))]] []).
  pose (r := fst (store_clients insert_one s1)).
  pose (s2 := snd (store_clients insert_one s1)).
  assert (heap demo_world !! 1%N
          = Some (mkObj Class.MongoDBAdapter
                    (<["db" := VExt 3]> {["client" := VExt 2]}))) as Hl
    by (vm_compute; reflexivity).
  assert (store_clients getitem (outside demo_world) = (inl (VExt 6), s1))
    as Hg by (vm_compute; reflexivity).
  assert (store_clients insert_one s1 = (inl (VExt 7), s2))
    as Hi by (vm_compute; reflexivity).
  eexists.
  exact (mongo_write_data_drops_result store_clients 0 demo_world 1%N _ 3%N
           (VStr (lit "mycollection"))
           (VDict [(lit "key", VStr (lit "value"))]) 6%N s1 _ s2
           Hl eq_refl Hg Hi).
Defined.
